(** * scalable-syslog: drain writer, subscription worker, counter metric
      and version filter

    A shallow embedding of the Go sources

    - [adapter/internal/egress/tcp.go]          (module [egress])
    - the adapter's ingress subscriber          (module [ingress])
    - [internal/metricemitter/counter_metric.go] (module [metricemitter])
    - the generated [loggregator_v2] envelope   (module [loggregator_v2])

    together with the properties of these programs that the design
    document states.  Go values are modelled as follows: [int32], [int64]
    and [uint64] are [Z] with the wrap-around written out; [[]byte] is
    [list byte]; a pointer that may be [nil] is an [option]; Go's [error]
    is [option Err]; a [map[string]T] is a [gmap string T].  Calls that
    leave the process (dialling, writing to a socket, reading the clock,
    receiving from the log bus) take their result from an explicit script
    and leave an event in a trace. *)

From Stdlib Require Import ZArith Lia.
From Stdlib.Strings Require Import Byte Ascii.
From stdpp Require Import gmap strings list pretty.

Local Open Scope Z_scope.

(** ** Machine integers *)

Module ints.

Definition wrap64 (z : Z) : Z := z mod 2 ^ 64.

(** Two's complement reduction to [int32]. *)
Definition wrap32 (z : Z) : Z := (z + 2 ^ 31) mod 2 ^ 32 - 2 ^ 31.

Definition is_uint64 (z : Z) : Prop := 0 <= z < 2 ^ 64.

Definition maxInt64 : Z := 2 ^ 63 - 1.
Definition minInt64 : Z := - 2 ^ 63.

End ints.

(** Go's [error] values are compared by identity only; a message is all the
    programs below ever attach to one. *)
Definition Err : Type := string.
Definition error : Type := option Err.

Abbreviation bytes := (list byte).

#[global] Instance byte_eq_dec : EqDecision byte := Byte.byte_eq_dec.

(** ** Package [bytes] of the Go library, as far as [tcp.go] calls it *)

Module gobytes.

Fixpoint Equal (a b : bytes) : bool :=
  match a, b with
  | [], [] => true
  | x :: a', y :: b' => Byte.eqb x y && Equal a' b'
  | _, _ => false
  end.

Fixpoint HasPrefix (s prefix : bytes) : bool :=
  match prefix, s with
  | [], _ => true
  | p :: prefix', c :: s' => Byte.eqb p c && HasPrefix s' prefix'
  | _ :: _, [] => false
  end.

(** [len(s) >= len(suffix) && Equal(s[len(s)-len(suffix):], suffix)] *)
Definition HasSuffix (s suffix : bytes) : bool :=
  (length suffix <=? length s)%nat
  && Equal (drop (length s - length suffix) s) suffix.

(** [Replace(s, old, new, n)] for a non-empty pattern [old = o :: os]:
    the first [n] non-overlapping occurrences of the pattern are replaced
    by [new], all of them when [n < 0].  [skip] counts the bytes of a
    matched occurrence that are still to be passed over.  (The empty
    pattern, which Go matches at rune boundaries, has no call site.) *)
Fixpoint replace_from (o : byte) (os new : bytes) (skip : nat) (n : Z)
    (s : bytes) : bytes :=
  match s with
  | [] => []
  | c :: s' =>
      match skip with
      | S k => replace_from o os new k n s'
      | O =>
          if (n =? 0) then c :: replace_from o os new O n s'
          else if HasPrefix s (o :: os)
               then new ++ replace_from o os new (length os) (n - 1) s'
               else c :: replace_from o os new O n s'
      end
  end.

Definition Replace (s : bytes) (o : byte) (os new : bytes) (n : Z) : bytes :=
  replace_from o os new O n s.

End gobytes.

(** ** The envelope of the log bus (generated code, [envelope.proto]) *)

Module loggregator_v2.

(** [type Log_Type int32] *)
Definition Log_Type : Type := Z.
Definition Log_OUT : Log_Type := 0.
Definition Log_ERR : Log_Type := 1.

Record Log := mkLog { Payload : bytes; Type_ : Log_Type }.

Inductive isCounter_Value :=
| Counter_Delta (Delta : Z)
| Counter_Total (Total : Z).

Record Counter := mkCounter { Name : string; Value_ : option isCounter_Value }.

(** Gauges and timers are never inspected by the code below. *)
Record Gauge := mkGauge { gauge_metrics : list string }.
Record Timer := mkTimer { timer_name : string; Start : Z; Stop : Z }.

Inductive isValue_Data :=
| Value_Text (Text : string)
| Value_Integer (Integer : Z)
| Value_Decimal (Decimal : Z).

Record Value := mkValue { Data : option isValue_Data }.

(** The [oneof message]; each wrapper holds a pointer. *)
Inductive isEnvelope_Message :=
| Envelope_Log (l : option Log)
| Envelope_Counter (c : option Counter)
| Envelope_Gauge (g : option Gauge)
| Envelope_Timer (t : option Timer).

Record Envelope := mkEnvelope {
  Timestamp : Z;
  SourceId : string;
  InstanceId : string;
  Tags : gmap string (option Value);
  Message : option isEnvelope_Message
}.

(** The getters take a pointer receiver and accept [nil]. *)

Definition GetMessage (m : option Envelope) : option isEnvelope_Message :=
  match m with
  | Some e => Message e
  | None => None
  end.

Definition GetTimestamp (m : option Envelope) : Z :=
  match m with
  | Some e => Timestamp e
  | None => 0
  end.

Definition GetTags (m : option Envelope) : gmap string (option Value) :=
  match m with
  | Some e => Tags e
  | None => ∅
  end.

Definition GetLog (m : option Envelope) : option Log :=
  match GetMessage m with
  | Some (Envelope_Log x) => x
  | _ => None
  end.

Definition GetCounter (m : option Envelope) : option Counter :=
  match GetMessage m with
  | Some (Envelope_Counter x) => x
  | _ => None
  end.

Definition GetValue (m : option Counter) : option isCounter_Value :=
  match m with
  | Some c => Value_ c
  | None => None
  end.

Definition GetDelta (m : option Counter) : Z :=
  match GetValue m with
  | Some (Counter_Delta d) => d
  | _ => 0
  end.

Definition GetData (m : option Value) : option isValue_Data :=
  match m with
  | Some v => Data v
  | None => None
  end.

Definition GetText (m : option Value) : string :=
  match GetData m with
  | Some (Value_Text t) => t
  | _ => ""
  end.

(** [env.Tags[k]]: indexing a map of pointers yields [nil] for a missing
    key. *)
Definition tag (m : gmap string (option Value)) (k : string) : option Value :=
  match m !! k with
  | Some v => v
  | None => None
  end.

End loggregator_v2.

(** ** [internal/metricemitter/counter_metric.go] *)

Module metricemitter.
Import loggregator_v2.

(** The [client] field is a back pointer that none of the methods below
    reads. *)
Record CounterMetric := mkCounterMetric {
  name : string;
  sourceID : string;
  tags : gmap string (option Value);
  delta : Z
}.

Definition set_delta (m : CounterMetric) (d : Z) : CounterMetric :=
  {| name := name m; sourceID := sourceID m; tags := tags m; delta := d |}.

(** [atomic.AddUint64(&m.delta, c)] *)
Definition Increment (m : CounterMetric) (c : Z) : CounterMetric :=
  set_delta m (ints.wrap64 (delta m + c)).

(** [atomic.LoadUint64(&m.delta)] *)
Definition GetDelta (m : CounterMetric) : Z := delta m.

(** [now] is the reading of [time.Now().UnixNano()]. *)
Definition toEnvelope (m : CounterMetric) (now : Z) (d : Z) : Envelope :=
  {| SourceId := sourceID m;
     Timestamp := now;
     InstanceId := "";
     Message :=
       Some (Envelope_Counter
               (Some {| Name := name m; Value_ := Some (Counter_Delta d) |}));
     Tags := tags m |}.

(** The callback of [SendWith] is arbitrary Go code: it runs on a world [W]
    of its own and may reach the metric itself. *)
Definition Callback (W : Type) : Type :=
  option Envelope -> W -> CounterMetric -> error * W * CounterMetric.

Definition SendWith {W : Type} (fn : Callback W) (now : Z) (w : W)
    (m : CounterMetric) : error * W * CounterMetric :=
  (* d := atomic.SwapUint64(&m.delta, 0) *)
  let d := delta m in
  let m0 := set_delta m 0 in
  match fn (Some (toEnvelope m0 now d)) w m0 with
  | (Some e, w1, m1) =>
      (* atomic.AddUint64(&m.delta, d); return err *)
      (Some e, w1, Increment m1 d)
  | (None, w1, m1) => (None, w1, m1)
  end.

End metricemitter.

(** ** The RFC 5424 message handed to the encoder *)

Module rfc5424.

Definition Priority : Type := Z.

(** Modelled from the spec: the constants of the encoder library, which is
    not part of the sources: severity info is 6 and error is 3, the
    facility user is 1, so that the two priorities are 14 and 11. *)
Definition Error : Priority := 3.
Definition Info : Priority := 6.
Definition User : Priority := 1 * 8.

(** The fields that [Write] sets; the message id and the structured data
    keep their zero value. *)
Record Message := mkMessage {
  Priority_ : Priority;
  Timestamp : Z;
  Hostname : string;
  AppName : string;
  ProcessID : string;
  Message_ : bytes
}.

End rfc5424.

(** What the drain writer takes from libraries outside the repository:
    [strings.ToUpper] and the encoder [rfc5424.Message.MarshalBinary], which
    yields the bytes of one frame or refuses the message. *)
Class GoLib := {
  strings_ToUpper : string -> string;
  MarshalBinary : rfc5424.Message -> bytes + Err
}.

(** A run of a call that may wait for the outside world: either it has
    returned, or the script of outside results ended while it was still
    running. *)
Inductive Outcome (A : Type) :=
| Returned (a : A)
| Running.
Arguments Returned {A} a.
Arguments Running {A}.

(** ** [adapter/internal/egress/tcp.go] *)

Module egress.
Import loggregator_v2.

(** A [net.Conn] is a handle. *)
Definition Conn : Type := nat.

Definition Minute : Z := 60 * 1000000000.

Record TCPWriter := mkTCPWriter {
  url_Host : string;
  appID : string;
  hostname : string;
  ioTimeout : Z;
  scheme : string;
  conn : option Conn;
  closed : bool;
  egressMetric : metricemitter.CounterMetric
}.

Definition set_conn (w : TCPWriter) (c : option Conn) : TCPWriter :=
  {| url_Host := url_Host w; appID := appID w; hostname := hostname w;
     ioTimeout := ioTimeout w; scheme := scheme w; conn := c;
     closed := closed w; egressMetric := egressMetric w |}.

Definition set_closed (w : TCPWriter) (b : bool) : TCPWriter :=
  {| url_Host := url_Host w; appID := appID w; hostname := hostname w;
     ioTimeout := ioTimeout w; scheme := scheme w; conn := conn w;
     closed := b; egressMetric := egressMetric w |}.

Definition set_egressMetric (w : TCPWriter) (m : metricemitter.CounterMetric)
    : TCPWriter :=
  {| url_Host := url_Host w; appID := appID w; hostname := hostname w;
     ioTimeout := ioTimeout w; scheme := scheme w; conn := conn w;
     closed := closed w; egressMetric := m |}.

(** What the writer does to the outside world, in order. *)
Inductive Event :=
| EvDial (addr : string)
| EvLog (format : string)
| EvSleep (d : Z)
| EvSetWriteDeadline (c : Conn) (t : Z)
| EvConnWrite (c : Conn) (frame : bytes)
| EvConnClose (c : Conn).

(** The result of one call of [w.dialFunc]; after a failure the code asks
    [contextDone(w.ctx)], whose answer comes with it. *)
Inductive DialResult :=
| DialOk (c : Conn)
| DialErr (e : Err) (ctxDone : bool).

(** Go's pair [(net.Conn, error)], of which one is [nil]. *)
Inductive ConnResult :=
| GotConn (c : Conn)
| ConnErr (e : Err).

Definition isDial (e : Event) : bool :=
  match e with EvDial _ => true | _ => false end.

Definition isConnWrite (e : Event) : bool :=
  match e with EvConnWrite _ _ => true | _ => false end.

Definition isSleep (e : Event) : bool :=
  match e with EvSleep _ => true | _ => false end.

(** The loop of [connect]; each round takes the next dial result of the
    script. *)
Fixpoint connect (w : TCPWriter) (dials : list DialResult)
    : list Event * TCPWriter * Outcome ConnResult :=
  if closed w then
    ([], w, Returned (ConnErr "attempting connect after close"))
  else
    match dials with
    | [] => ([], w, Running)
    | DialOk c :: _ =>
        ([EvDial (url_Host w); EvLog "created conn to syslog drain: %s"],
         set_conn w (Some c), Returned (GotConn c))
    | DialErr e done :: rest =>
        if done then ([EvDial (url_Host w)], w, Returned (ConnErr e))
        else
          let '(ev, w', r) := connect w rest in
          (EvDial (url_Host w)
             :: EvLog "failed to connect to %s, retrying in %s: %s"
             :: EvSleep Minute :: ev, w', r)
    end.

Definition connection (w : TCPWriter) (dials : list DialResult)
    : list Event * TCPWriter * Outcome ConnResult :=
  match conn w with
  | None => connect w dials
  | Some c => ([], w, Returned (GotConn c))
  end.

(** [closeRes] is what [w.conn.Close()] returns if it is called. *)
Definition connClose (w : TCPWriter) (closeRes : error)
    : list Event * TCPWriter * error :=
  match conn w with
  | Some c => ([EvConnClose c], set_conn w None, closeRes)
  | None => ([], w, None)
  end.

Definition Close (w : TCPWriter) (closeRes : error)
    : list Event * TCPWriter * error :=
  connClose (set_closed w true) closeRes.

Definition removeNulls (msg : bytes) : bytes :=
  gobytes.Replace msg x00 [] [] (-1).

Definition appendNewline (msg : bytes) : bytes :=
  if negb (gobytes.HasSuffix msg [x0a]) then msg ++ [x0a] else msg.

Definition generatePriority (logType : Log_Type) : rfc5424.Priority :=
  if logType =? Log_OUT then rfc5424.Info + rfc5424.User
  else if logType =? Log_ERR then rfc5424.Error + rfc5424.User
  else -1.

Section Writer.
Context `{GoLib}.

Definition generateProcessID (sourceType sourceInstance : string) : string :=
  let sourceType := strings_ToUpper sourceType in
  if decide (sourceInstance ≠ "") then
    "[" +:+ sourceType +:+ "/" +:+ sourceInstance +:+ "]"
  else "[" +:+ sourceType +:+ "]".

(** The struct literal at the head of [Write]. *)
Definition buildMessage (w : TCPWriter) (env : option Envelope) (l : Log)
    : rfc5424.Message :=
  {| rfc5424.Priority_ := generatePriority (Type_ l);
     rfc5424.Timestamp := GetTimestamp env;
     rfc5424.Hostname := hostname w;
     rfc5424.AppName := appID w;
     rfc5424.ProcessID :=
       generateProcessID (GetText (tag (GetTags env) "source_type"))
                         (GetText (tag (GetTags env) "source_instance"));
     rfc5424.Message_ := appendNewline (removeNulls (Payload l)) |}.

(** [msg.WriteTo(conn)]: marshal, then one [conn.Write] whose result is
    [writeRes]. *)
Definition WriteTo (msg : rfc5424.Message) (c : Conn) (writeRes : error)
    : list Event * error :=
  match MarshalBinary msg with
  | inr e => ([], Some e)
  | inl b => ([EvConnWrite c b], writeRes)
  end.

(** The outside results one call of [Write] may consume. *)
Record WriteIO := mkWriteIO {
  dials : list DialResult;
  now : Z;
  writeRes : error;
  closeRes : error
}.

Definition Write (w : TCPWriter) (env : option Envelope) (io : WriteIO)
    : list Event * TCPWriter * Outcome error :=
  match GetLog env with
  | None => ([], w, Returned None)
  | Some l =>
      let msg := buildMessage w env l in
      match connection w (dials io) with
      | (ev1, w1, Running) => (ev1, w1, Running)
      | (ev1, w1, Returned (ConnErr e)) => (ev1, w1, Returned (Some e))
      | (ev1, w1, Returned (GotConn c)) =>
          let ev2 := [EvSetWriteDeadline c (now io + ioTimeout w1)] in
          match WriteTo msg c (writeRes io) with
          | (ev3, Some e) =>
              let '(ev4, w2, _) := connClose w1 (closeRes io) in
              (ev1 ++ ev2 ++ ev3 ++ ev4, w2, Returned (Some e))
          | (ev3, None) =>
              (ev1 ++ ev2 ++ ev3,
               set_egressMetric w1
                 (metricemitter.Increment (egressMetric w1) 1),
               Returned None)
          end
      end
  end.

End Writer.

(** *** Vocabulary of the writer's properties *)

(** The frames that a trace puts on a connection. *)
Definition frames (tr : list Event) : list Event := List.filter isConnWrite tr.

(** A log whose type is neither [OUT] nor [ERR]. *)
Definition unknownLogType (env : option Envelope) : Prop :=
  exists l, GetLog env = Some l /\ Type_ l <> Log_OUT /\ Type_ l <> Log_ERR.

(** The events of [n] failed dials, each followed by the back-off. *)
Fixpoint retries (w : TCPWriter) (n : nat) : list Event :=
  match n with
  | O => []
  | S n' =>
      EvDial (url_Host w)
        :: EvLog "failed to connect to %s, retrying in %s: %s"
        :: EvSleep Minute :: retries w n'
  end.

(** A script of failed dials during which the context stays alive. *)
Definition failing (errs : list Err) : list DialResult :=
  map (fun e => DialErr e false) errs.

(** The time that a trace spends asleep. *)
Fixpoint slept (tr : list Event) : Z :=
  match tr with
  | [] => 0
  | EvSleep d :: tr' => d + slept tr'
  | _ :: tr' => slept tr'
  end.

(** What [Close] leaves behind. *)
Definition closed_writer (w : TCPWriter) : Prop :=
  closed w = true /\ conn w = None.

(** The owner of a writer calls [Write] and [Close] on it, one after the
    other. *)
Inductive Call :=
| CallWrite (env : option Envelope) (io : WriteIO)
| CallClose (closeRes : error).

Definition call `{GoLib} (w : TCPWriter) (c : Call)
    : list Event * TCPWriter * Outcome error :=
  match c with
  | CallWrite env io => Write w env io
  | CallClose closeRes =>
      let '(ev, w', e) := Close w closeRes in (ev, w', Returned e)
  end.

(** The events and the result of each call, and the writer after the last. *)
Fixpoint calls `{GoLib} (w : TCPWriter) (cs : list Call)
    : list (list Event * Outcome error) * TCPWriter :=
  match cs with
  | [] => ([], w)
  | c :: cs' =>
      match call w c with
      | (ev, w', Running) => ([(ev, Running)], w')
      | (ev, w', Returned e) =>
          let '(rs, w'') := calls w' cs' in ((ev, Returned e) :: rs, w'')
      end
  end.

(** What a closed writer answers. *)
Definition closed_answer (c : Call) : error :=
  match c with
  | CallWrite env _ =>
      match GetLog env with
      | Some _ => Some "attempting connect after close"
      | None => None
      end
  | CallClose _ => None
  end.

End egress.

(** ** The adapter's subscriber: [Start], [connectAndRead],
       [attemptConnectAndRead], [readWriteLoop] *)

Module ingress.
Import loggregator_v2.

(** [v1.Binding] *)
Record Binding := mkBinding {
  AppId : string;
  Hostname : string;
  Drain : string
}.

Definition buildShardId (binding : Binding) : string :=
  AppId binding +:+ Hostname binding +:+ Drain binding.

Definition Second : Z := 1000000000.

(** [Time.Sub] saturates at the bounds of [Duration]. *)
Definition time_Sub (t u : Z) : Z :=
  Z.max ints.minInt64 (Z.min ints.maxInt64 (t - u)).

(** [time.Since(t)], where [now] is the clock reading it takes. *)
Definition time_Since (now t : Z) : Z := time_Sub now t.

(** [stop], the function that [Start] returns:
    [atomic.AddInt32(&unsubscribe, 1)]. *)
Definition stop (unsubscribe : Z) : Z := ints.wrap32 (unsubscribe + 1).

(** The flag after [k] calls of [stop]; [Start] declares it as zero. *)
Definition unsubscribe_after (k : nat) : Z := Nat.iter k stop 0.

Inductive Event :=
| EvConnect (b : Binding)
| EvNext
| EvReceiver (shardId sourceId : string)
| EvLoadUnsubscribe
| EvRecv
| EvIncCounter (name : string) (increment : Z) (major minor : Z)
| EvLog (format : string)
| EvWrite (env : option Envelope)
| EvCloseSend
| EvCancel
| EvWriterClose.

Definition isRecv (e : Event) : bool :=
  match e with EvRecv => true | _ => false end.

Definition isConnect (e : Event) : bool :=
  match e with EvConnect _ => true | _ => false end.

Definition isIncCounter (e : Event) : bool :=
  match e with EvIncCounter _ _ _ _ => true | _ => false end.

(** The sum of the increments sent to the counter [ingress]. *)
Fixpoint ingressed (tr : list Event) : Z :=
  match tr with
  | [] => 0
  | EvIncCounter _ n _ _ :: tr' => n + ingressed tr'
  | _ :: tr' => ingressed tr'
  end.

Inductive RecvResult :=
| RecvOk (env : option Envelope)
| RecvErr (e : Err).

(** What one round of the loop of [readWriteLoop] takes from outside: the
    value that [atomic.LoadInt32(unsubscribe)] reads, the result of
    [r.Recv()], and the two clock readings of [time.Since(lastEmitted)] and
    of [lastEmitted = time.Now()]. *)
Record Tick := mkTick {
  unsubscribe : Z;
  recv : RecvResult;
  sinceNow : Z;
  emitNow : Z
}.

(** The two local variables of [readWriteLoop]. *)
Record LoopState := mkLoopState {
  count : Z;
  lastEmitted : Z
}.

Inductive Flow :=
| Continue (st : LoopState)
| Return (e : error).

(** One round of the [for] loop. *)
Definition iteration (st : LoopState) (t : Tick) : list Event * Flow :=
  if 0 <? unsubscribe t then ([EvLoadUnsubscribe], Return None)
  else
    match recv t with
    | RecvErr e => ([EvLoadUnsubscribe; EvRecv], Return (Some e))
    | RecvOk env =>
        match GetLog env with
        | None => ([EvLoadUnsubscribe; EvRecv], Continue st)
        | Some _ =>
            let count := ints.wrap64 (count st + 1) in
            if (1000 <=? count)
               || (5 * Second <? time_Since (sinceNow t) (lastEmitted st))
            then
              ([EvLoadUnsubscribe; EvRecv;
                EvIncCounter "ingress" count 2 0;
                EvLog "Ingressed %d envelopes";
                EvWrite env],
               Continue {| count := 0; lastEmitted := emitNow t |})
            else
              ([EvLoadUnsubscribe; EvRecv; EvWrite env],
               Continue {| count := count; lastEmitted := lastEmitted st |})
        end
    end.

Fixpoint loop (st : LoopState) (ticks : list Tick)
    : list Event * Outcome error :=
  match ticks with
  | [] => ([], Running)
  | t :: rest =>
      match iteration st t with
      | (ev, Return e) => (ev, Returned e)
      | (ev, Continue st') =>
          let '(ev', r) := loop st' rest in (ev ++ ev', r)
      end
  end.

(** [startNow] is the clock reading of [lastEmitted := time.Now()]. *)
Definition readWriteLoop (startNow : Z) (ticks : list Tick)
    : list Event * Outcome error :=
  loop {| count := 0; lastEmitted := startNow |} ticks.

(** What one call of [attemptConnectAndRead] takes from outside. *)
Record Session := mkSession {
  connectRes : error;
  receiverRes : error;
  startNow : Z;
  ticks : list Tick
}.

Definition attemptConnectAndRead (binding : Binding) (s : Session)
    : list Event * Outcome bool :=
  match connectRes s with
  | Some _ =>
      ([EvConnect binding; EvLog "Failed connecting to syslog: %s"],
       Returned false)
  | None =>
      let open :=
        [EvConnect binding; EvNext;
         EvReceiver (buildShardId binding) (AppId binding)] in
      match receiverRes s with
      | Some _ => (open ++ [EvWriterClose], Returned true)
      | None =>
          match readWriteLoop (startNow s) (ticks s) with
          | (ev, Running) => (open ++ ev, Running)
          | (ev, Returned (Some _)) =>
              (open ++ ev
                 ++ [EvLog "Subscriber read/write loop has unexpectedly closed: %s";
                     EvCloseSend; EvCancel; EvWriterClose],
               Returned true)
          | (ev, Returned None) =>
              (open ++ ev ++ [EvCloseSend; EvCancel; EvWriterClose],
               Returned false)
          end
      end
  end.

Fixpoint connectAndRead (binding : Binding) (sessions : list Session)
    : list Event * Outcome unit :=
  match sessions with
  | [] => ([], Running)
  | s :: rest =>
      match attemptConnectAndRead binding s with
      | (ev, Running) => (ev, Running)
      | (ev, Returned false) => (ev, Returned tt)
      | (ev, Returned true) =>
          let '(ev', r) := connectAndRead binding rest in (ev ++ ev', r)
      end
  end.

(** *** Vocabulary of the worker's properties *)

(** The number of envelopes handed to the writer. *)
Fixpoint written (tr : list Event) : Z :=
  match tr with
  | [] => 0
  | EvWrite _ :: tr' => 1 + written tr'
  | _ :: tr' => written tr'
  end.

(** The invariant of the loop: fewer than a thousand envelopes are counted
    and not yet reported. *)
Definition counting (st : LoopState) : Prop := 0 <= count st < 1000.

(** A round in which the worker is not stopped and the stream delivers. *)
Definition quiet (t : Tick) : Prop :=
  unsubscribe t <= 0 /\ exists env, recv t = RecvOk env.

(** A session after which [connectAndRead] goes round again. *)
Definition restarts (binding : Binding) (s : Session) : Prop :=
  (attemptConnectAndRead binding s).2 = Returned true.

(** The events of a row of sessions. *)
Definition session_events (binding : Binding) (ss : list Session) : list Event :=
  flat_map (fun s => (attemptConnectAndRead binding s).1) ss.

(** The events with which [attemptConnectAndRead] opens a session. *)
Definition opening (binding : Binding) : list Event :=
  [EvConnect binding; EvNext;
   EvReceiver (buildShardId binding) (AppId binding)].

End ingress.

(** ** The scheduler's version filter *)

Module scheduler.

(** [ingress.Binding] of the scheduler: the drains and the hostname of one
    application. *)
Record Binding := mkBinding {
  Drains : list string;
  Hostname : string
}.

(** [net/url] of the Go library: [url.Parse] and [u.Query().Get(key)]. *)
Class NetURL := {
  URL : Type;
  url_Parse : string -> option URL;
  Query_Get : URL -> string -> string
}.

Section VersionFilter.
Context `{NetURL}.

(** Modelled from the spec: the version filter, of which the sources hold
    the test suite only.  A drain URL stays when it parses and carries
    [drain-version=2.0] in its query. *)
Definition keepDrain (drain : string) : bool :=
  match url_Parse drain with
  | Some u => bool_decide (Query_Get u "drain-version" = "2.0")
  | None => false
  end.

(** Modelled from the spec: the version filter removes the other drains
    of every application, and an application left without a drain
    disappears from the result. *)
Definition filterBinding (b : Binding) : option Binding :=
  match List.filter keepDrain (Drains b) with
  | [] => None
  | d :: ds => Some {| Drains := d :: ds; Hostname := Hostname b |}
  end.

(** Modelled from the spec: the filter works on the bindings application by
    application. *)
Definition VersionFilter (bindings : gmap string Binding)
    : gmap string Binding :=
  omap filterBinding bindings.

(** Modelled from the spec: [FetchBindings] of the filter passes the
    error of the reader it wraps on, with no bindings. *)
Definition FetchBindings (fetched : gmap string Binding + Err)
    : gmap string Binding + Err :=
  match fetched with
  | inl bindings => inl (VersionFilter bindings)
  | inr e => inr e
  end.

End VersionFilter.

End scheduler.

(** ** Instances for running the programs on examples *)

Module samples.
Import loggregator_v2.

Definition upper (a : Ascii.ascii) : Ascii.ascii :=
  let n := Ascii.nat_of_ascii a in
  if ((97 <=? n) && (n <=? 122))%nat then Ascii.ascii_of_nat (n - 32) else a.

Fixpoint ToUpper (s : string) : string :=
  match s with
  | EmptyString => EmptyString
  | String a s' => String (upper a) (ToUpper s')
  end.

(** A stand-in for the encoder, which is outside the repository: one line
    with the priority printed as a decimal number, as a [%d] verb prints
    it, then the header fields and the message.  It refuses nothing. *)
Definition frame (m : rfc5424.Message) : bytes :=
  String.list_byte_of_string
    ("<" +:+ pretty (rfc5424.Priority_ m) +:+ ">1 "
     +:+ pretty (rfc5424.Timestamp m) +:+ " "
     +:+ rfc5424.Hostname m +:+ " " +:+ rfc5424.AppName m +:+ " "
     +:+ rfc5424.ProcessID m +:+ " - - ")
  ++ rfc5424.Message_ m.

Definition lib : GoLib :=
  {| strings_ToUpper := ToUpper; MarshalBinary := fun m => inl (frame m) |}.

(** An encoder that refuses every message whose priority is negative. *)
Definition strict : GoLib :=
  {| strings_ToUpper := ToUpper;
     MarshalBinary := fun m =>
       if rfc5424.Priority_ m <? 0 then inr "invalid priority"
       else inl (frame m) |}.

Definition metric : metricemitter.CounterMetric :=
  {| metricemitter.name := "egress"; metricemitter.sourceID := "adapter";
     metricemitter.tags := ∅; metricemitter.delta := 0 |}.

(** A callback that fails and leaves the counter alone, and one that counts
    three more before it fails. *)
Definition failing_callback : metricemitter.Callback unit :=
  fun _ w m => (Some "send failed", w, m).

Definition counting_callback : metricemitter.Callback unit :=
  fun _ w m => (Some "send failed", w, metricemitter.Increment m 3).

Definition five : metricemitter.CounterMetric :=
  metricemitter.Increment (metricemitter.Increment metric 2) 3.

(** A writer as [NewTCPWriter] makes it, and the same with a connection. *)
Definition writer : egress.TCPWriter :=
  {| egress.url_Host := "example.com:1234"; egress.appID := "A";
     egress.hostname := "H"; egress.ioTimeout := 1000000000;
     egress.scheme := "syslog"; egress.conn := None;
     egress.closed := false; egress.egressMetric := metric |}.

Definition connected : egress.TCPWriter := egress.set_conn writer (Some 7%nat).

Definition tags_APP_3 : gmap string (option Value) :=
  <["source_type" := Some {| Data := Some (Value_Text "app") |}]>
    (<["source_instance" := Some {| Data := Some (Value_Text "3") |}]> ∅).

Definition envelope (m : option isEnvelope_Message) : Envelope :=
  {| Timestamp := 0; SourceId := "A"; InstanceId := ""; Tags := tags_APP_3;
     Message := m |}.

Definition log (t : Log_Type) (payload : string) : option Envelope :=
  Some (envelope (Some (Envelope_Log
    (Some {| Payload := String.list_byte_of_string payload; Type_ := t |})))).

Definition counter : option Envelope :=
  Some (envelope (Some (Envelope_Counter
    (Some {| Name := "some-counter-name"; Value_ := Some (Counter_Delta 42) |})))).

Definition io : egress.WriteIO :=
  {| egress.dials := [egress.DialOk 7%nat]; egress.now := 0;
     egress.writeRes := None; egress.closeRes := None |}.

(** A binding, rounds of the worker's loop and sessions. *)
Definition binding : ingress.Binding :=
  {| ingress.AppId := "A"; ingress.Hostname := "H";
     ingress.Drain := "syslog://example.com:1234/?drain-version=2.0" |}.

Definition tick_log : ingress.Tick :=
  {| ingress.unsubscribe := 0; ingress.recv := ingress.RecvOk (log 0 "hello");
     ingress.sinceNow := 1; ingress.emitNow := 2 |}.

Definition tick_counter : ingress.Tick :=
  {| ingress.unsubscribe := 0; ingress.recv := ingress.RecvOk counter;
     ingress.sinceNow := 1; ingress.emitNow := 2 |}.

Definition tick_err : ingress.Tick :=
  {| ingress.unsubscribe := 0; ingress.recv := ingress.RecvErr "stream closed";
     ingress.sinceNow := 1; ingress.emitNow := 2 |}.

Definition tick_stopped : ingress.Tick :=
  {| ingress.unsubscribe := 1; ingress.recv := ingress.RecvOk (log 0 "late");
     ingress.sinceNow := 1; ingress.emitNow := 2 |}.

Definition session (ticks : list ingress.Tick) : ingress.Session :=
  {| ingress.connectRes := None; ingress.receiverRes := None;
     ingress.startNow := 0; ingress.ticks := ticks |}.

Definition bad_session : ingress.Session :=
  {| ingress.connectRes := Some "parse error"; ingress.receiverRes := None;
     ingress.startNow := 0; ingress.ticks := [tick_log] |}.

Definition almost_full : ingress.LoopState :=
  {| ingress.count := 999; ingress.lastEmitted := 0 |}.

(** A reader of URLs that knows what the drains of the filter's test suite
    need: a URL that starts with a colon has no scheme and does not parse;
    the query is what follows the first question mark, a list of
    [key=value] joined by [&]. *)
Fixpoint after (c : Ascii.ascii) (s : string) : option string :=
  match s with
  | EmptyString => None
  | String a s' => if Ascii.eqb a c then Some s' else after c s'
  end.

Fixpoint before (c : Ascii.ascii) (s : string) : string :=
  match s with
  | EmptyString => EmptyString
  | String a s' => if Ascii.eqb a c then EmptyString else String a (before c s')
  end.

Fixpoint split (c : Ascii.ascii) (s : string) : list string :=
  match s with
  | EmptyString => [EmptyString]
  | String a s' =>
      if Ascii.eqb a c then EmptyString :: split c s'
      else match split c s' with
           | [] => [String a EmptyString]
           | h :: t => String a h :: t
           end
  end.

Definition parse (s : string) : option string :=
  match s with
  | String ":"%char _ => None
  | _ => Some s
  end.

Fixpoint lookup_pair (key : string) (pairs : list string) : string :=
  match pairs with
  | [] => ""
  | p :: ps =>
      if String.eqb (before "="%char p) key then default "" (after "="%char p)
      else lookup_pair key ps
  end.

Definition query_get (u key : string) : string :=
  lookup_pair key (split "&"%char (default "" (after "?"%char u))).

Definition net_url : scheduler.NetURL :=
  {| scheduler.URL := string; scheduler.url_Parse := parse;
     scheduler.Query_Get := query_get |}.

(** The inputs and the expected results of the filter's test suite. *)
Definition we_dont_care (drains : list string) : scheduler.Binding :=
  {| scheduler.Drains := drains; scheduler.Hostname := "we.dont.care" |}.

Definition versions_input : gmap string scheduler.Binding :=
  <["app-id-with-multiple-drains" :=
      we_dont_care ["syslog://example.com:1234/?drain-version=2.0";
                    "syslog://example.net:4321/"]]>
  (<["app-id-with-good-drain" :=
      we_dont_care ["syslog://example.com:1234/?drain-version=2.0"]]>
  (<["app-id-with-bad-drain" :=
      we_dont_care ["syslog://example.net:4321/"]]> ∅)).

Definition versions_expected : gmap string scheduler.Binding :=
  <["app-id-with-multiple-drains" :=
      we_dont_care ["syslog://example.com:1234/?drain-version=2.0"]]>
  (<["app-id-with-good-drain" :=
      we_dont_care ["syslog://example.com:1234/?drain-version=2.0"]]> ∅).

Definition malformed_input : gmap string scheduler.Binding :=
  <["app-id-with-malformed-drains" :=
      we_dont_care ["://some-bad-url/?drain-version=2.0";
                    "syslog://example.com:1234/?drain-version=2.0";
                    "syslog://example.net:4321/"]]>
  (<["app-id-with-single-malformed-drain" :=
      we_dont_care ["://another-bad-url/?drain-version=2.0"]]> ∅).

Definition malformed_expected : gmap string scheduler.Binding :=
  <["app-id-with-malformed-drains" :=
      we_dont_care ["syslog://example.com:1234/?drain-version=2.0"]]> ∅.

End samples.

(** ** More of the generated envelope code *)

Module envelope_ext.
Import loggregator_v2.

Definition GetGauge (m : option Envelope) : option Gauge :=
  match GetMessage m with
  | Some (Envelope_Gauge x) => x
  | _ => None
  end.

Definition GetTimer (m : option Envelope) : option Timer :=
  match GetMessage m with
  | Some (Envelope_Timer x) => x
  | _ => None
  end.

Definition GetTotal (m : option Counter) : Z :=
  match GetValue m with
  | Some (Counter_Total t) => t
  | _ => 0
  end.

(** How many of the four getters of the [oneof] return a message. *)
Definition bodies (m : option Envelope) : nat :=
  length (List.filter id
            [bool_decide (is_Some (GetLog m));
             bool_decide (is_Some (GetCounter m));
             bool_decide (is_Some (GetGauge m));
             bool_decide (is_Some (GetTimer m))]).

(** A [proto.Buffer], seen as the row of varints written to it:
    [EncodeVarint] appends one, [DecodeVarint] takes the first and fails on
    an empty buffer, returning zero. *)
Definition Buffer : Type := list Z.

Definition EncodeVarint (b : Buffer) (x : Z) : Buffer := b ++ [x].

Definition DecodeVarint (b : Buffer) : Z * error * Buffer :=
  match b with
  | x :: b' => (x, None, b')
  | [] => (0, Some "unexpected EOF", [])
  end.

Definition ErrInternalBadWireType : Err := "proto: internal error: bad wiretype for oneof".

Section Codec.
(** The wire type of varints, a constant of the protobuf library. *)
Variable WireVarint : Z.

Definition set_Value (m : Counter) (v : isCounter_Value) : Counter :=
  {| Name := Name m; Value_ := Some v |}.

Definition _Counter_OneofMarshaler (m : Counter) (b : Buffer) : Buffer :=
  match Value_ m with
  | Some (Counter_Delta d) =>
      EncodeVarint (EncodeVarint b (Z.lor (Z.shiftl 2 3) WireVarint)) d
  | Some (Counter_Total t) =>
      EncodeVarint (EncodeVarint b (Z.lor (Z.shiftl 3 3) WireVarint)) t
  | None => b
  end.

(** The result is [(handled, err)], the counter and what is left of the
    buffer. *)
Definition _Counter_OneofUnmarshaler (m : Counter) (tag wire : Z) (b : Buffer)
    : bool * error * Counter * Buffer :=
  if tag =? 2 then
    if negb (wire =? WireVarint) then (true, Some ErrInternalBadWireType, m, b)
    else
      let '(x, err, b') := DecodeVarint b in
      (true, err, set_Value m (Counter_Delta x), b')
  else if tag =? 3 then
    if negb (wire =? WireVarint) then (true, Some ErrInternalBadWireType, m, b)
    else
      let '(x, err, b') := DecodeVarint b in
      (true, err, set_Value m (Counter_Total x), b')
  else (false, None, m, b).

End Codec.

End envelope_ext.

(** ** The options of the counter metric *)

Module metric_options.
Import loggregator_v2 metricemitter.

Definition text (v : string) : option Value :=
  Some {| Data := Some (Value_Text v) |}.

Definition setTag (k v : string) (m : CounterMetric) : CounterMetric :=
  {| name := name m; sourceID := sourceID m;
     tags := <[k := text v]> (tags m); delta := delta m |}.

(** [func(taggedMetric)]; the counter metric is the tagged metric of the
    file. *)
Definition MetricOption : Type := CounterMetric -> CounterMetric.

(** [for k, v := range tags { t.setTag(k, v) }] *)
Definition WithTags (tags : gmap string string) : MetricOption :=
  fun t => map_fold (fun k v t => setTag k v t) t tags.

(** [fmt.Sprintf("%d.%d", major, minor)] of two unsigned numbers. *)
Definition WithVersion (major minor : Z) : MetricOption :=
  WithTags {[ "metric_version" := pretty major +:+ "." +:+ pretty minor ]}.

Definition NewCounterMetric (name sourceID : string) (opts : list MetricOption)
    : CounterMetric :=
  foldl (fun m opt => opt m)
        {| name := name; sourceID := sourceID; tags := ∅; delta := 0 |} opts.

(** The tags that a row of [WithTags] options leaves: a later option
    overwrites an earlier one. *)
Definition merged (tss : list (gmap string string)) : gmap string (option Value) :=
  foldl (fun acc ts => (text <$> ts) ∪ acc) ∅ tss.

(** What the owner of a metric does with it: count, or send with a callback
    that takes the delta of the envelope and succeeds or fails. *)
Inductive Op :=
| OpIncrement (c : Z)
| OpSend (ok : bool) (now : Z).

(** The callback keeps the sum of what it has taken in [sent]. *)
Definition deliver (ok : bool) : Callback Z :=
  fun env sent m =>
    if ok then
      (None, ints.wrap64 (sent + loggregator_v2.GetDelta (GetCounter env)), m)
    else (Some "send failed", sent, m).

Fixpoint run (ops : list Op) (sent : Z) (m : CounterMetric) : Z * CounterMetric :=
  match ops with
  | [] => (sent, m)
  | OpIncrement c :: ops' => run ops' sent (Increment m c)
  | OpSend ok now :: ops' =>
      let '(_, sent', m') := SendWith (deliver ok) now sent m in
      run ops' sent' m'
  end.

(** The sum of the increments of a row of operations. *)
Fixpoint counted (ops : list Op) : Z :=
  match ops with
  | [] => 0
  | OpIncrement c :: ops' => c + counted ops'
  | OpSend _ _ :: ops' => counted ops'
  end.

End metric_options.

(** ** [NewTCPWriter] and the vocabulary of further writer properties *)

Module egress_ext.
Import loggregator_v2 egress.

(** [parseHost] is [url.Parse] followed by the field [Host] of its result.
    The dial time-out goes into the dial function and the context into
    [contextDone], both of which the scripts of dial results stand for. *)
Definition NewTCPWriter (parseHost : string -> string + Err)
    (binding : ingress.Binding) (ioTimeout : Z)
    (egressMetric : metricemitter.CounterMetric) : TCPWriter + Err :=
  match parseHost (ingress.Drain binding) with
  | inr err => inr err
  | inl host =>
      inl {| url_Host := host;
             appID := ingress.AppId binding;
             hostname := ingress.Hostname binding;
             ioTimeout := ioTimeout;
             scheme := "syslog";
             conn := None;
             closed := false;
             egressMetric := egressMetric |}
  end.

Definition dialled (tr : list Event) : list Event := List.filter isDial tr.

Definition sleeps (tr : list Event) : list Event := List.filter isSleep tr.

(** The connection of a frame. *)
Definition on_conn (c : Conn) (e : Event) : Prop :=
  match e with
  | EvConnWrite c' _ => c' = c
  | _ => True
  end.

End egress_ext.

(** ** The vocabulary of further worker properties *)

Module ingress_ext.
Import loggregator_v2 ingress.

(** The envelopes handed to the writer, in order. *)
Fixpoint written_envs (tr : list Event) : list (option Envelope) :=
  match tr with
  | [] => []
  | EvWrite env :: tr' => env :: written_envs tr'
  | _ :: tr' => written_envs tr'
  end.

(** The logs that a row of rounds receives, in order. *)
Fixpoint logs_of (ticks : list Tick) : list (option Envelope) :=
  match ticks with
  | [] => []
  | t :: ticks' =>
      match recv t with
      | RecvOk env =>
          match GetLog env with
          | Some _ => env :: logs_of ticks'
          | None => logs_of ticks'
          end
      | RecvErr _ => logs_of ticks'
      end
  end.

Definition isWriterClose (e : Event) : bool :=
  match e with EvWriterClose => true | _ => false end.

Definition isCloseSend (e : Event) : bool :=
  match e with EvCloseSend => true | _ => false end.

Definition isCancel (e : Event) : bool :=
  match e with EvCancel => true | _ => false end.

Definition count_of (p : Event -> bool) (tr : list Event) : nat :=
  length (List.filter p tr).

(** An emission as the loop makes them: to [ingress], of between one and a
    thousand envelopes, with the version 2.0. *)
Definition batch (e : Event) : Prop :=
  match e with
  | EvIncCounter name n major minor =>
      name = "ingress" /\ 1 <= n <= 1000 /\ major = 2 /\ minor = 0
  | _ => True
  end.

End ingress_ext.

(** ** [tools/fake_logs_provider/main.go] *)

Module provider.
Import loggregator_v2.

Definition Second : Z := 1000000000.

(** Go's [int] on a 64-bit platform. *)
Definition wrapInt (z : Z) : Z := (z + 2 ^ 63) mod 2 ^ 64 - 2 ^ 63.

Definition app_tags : gmap string (option Value) :=
  <["source_type" := Some {| Data := Some (Value_Text "APP") |}]>
    (<["source_instance" := Some {| Data := Some (Value_Text "3") |}]> ∅).

(** [now] is the reading of [time.Now().UnixNano()]. *)
Definition buildEnvelope (isLog : bool) (sourceId : string) (now : Z) : Envelope :=
  if isLog then
    {| Tags := app_tags; Timestamp := now; SourceId := sourceId;
       InstanceId := "";
       Message :=
         Some (Envelope_Log
                 (Some {| Payload := String.list_byte_of_string "Some happy log";
                          Type_ := Log_OUT |})) |}
  else
    {| Tags := app_tags; Timestamp := now; SourceId := sourceId;
       InstanceId := "";
       Message :=
         Some (Envelope_Counter
                 (Some {| Name := "some-counter-name";
                          Value_ := Some (Counter_Delta 42) |})) |}.

Inductive Event :=
| EvSend (e : Envelope)
| EvSleep (d : Z).

(** One round of [Receiver] takes the clock reading and the result of
    [server.Send]. *)
Record Round := mkRound { clock : Z; sendRes : error }.

(** The loop of [Receiver] from the counter [i] on; [sourceId] is
    [r.GetFilter().GetSourceId()]. *)
Fixpoint serve (sourceId : string) (i : Z) (rounds : list Round)
    : list Event * Outcome error :=
  match rounds with
  | [] => ([], Running)
  | r :: rest =>
      let e := buildEnvelope (Z.rem i 2 =? 0) sourceId (clock r) in
      match sendRes r with
      | Some err => ([EvSend e], Returned (Some err))
      | None =>
          let '(ev, out) := serve sourceId (wrapInt (i + 1)) rest in
          (EvSend e :: EvSleep Second :: ev, out)
      end
  end.

Definition Receiver (sourceId : string) (rounds : list Round)
    : list Event * Outcome error :=
  serve sourceId 0 rounds.

(** The envelopes sent, in order. *)
Fixpoint sent (tr : list Event) : list Envelope :=
  match tr with
  | [] => []
  | EvSend e :: tr' => e :: sent tr'
  | EvSleep _ :: tr' => sent tr'
  end.

(** Rounds in which [Send] succeeds. *)
Definition delivered (clocks : list Z) : list Round :=
  map (fun c => {| clock := c; sendRes := None |}) clocks.

End provider.

(** ** Further inputs for examples *)

Module cases.
Import loggregator_v2.

Definition parseHost (drain : string) : string + Err :=
  match samples.parse drain with
  | None => inr "parse: missing protocol scheme"
  | Some _ =>
      inl (samples.before "/"%char
             (default "" (samples.after "/"%char
                (default "" (samples.after "/"%char drain)))))
  end.

Definition x_log : Log := {| Payload := ["x"%byte]; Type_ := Log_OUT |}.

Definition failing_io : egress.WriteIO :=
  {| egress.dials := []; egress.now := 0;
     egress.writeRes := Some "broken pipe"; egress.closeRes := None |}.

Definition retry_io : egress.WriteIO :=
  {| egress.dials := egress.failing ["refused"; "refused"] ++ [egress.DialOk 9%nat];
     egress.now := 5; egress.writeRes := None; egress.closeRes := None |}.

Definition delta_counter : Counter :=
  {| Name := "egress"; Value_ := Some (Counter_Delta 42) |}.

End cases.

(** * Properties *)

(** ** Byte strings *)

Section BytesFacts.
Import gobytes.

Lemma Equal_eq (a b : bytes) : Equal a b = true <-> a = b.
Proof.
  revert b; induction a as [|x a IH]; intros [|y b]; simpl; try easy.
  rewrite andb_true_iff, IH. split.
  - intros [Hxy ->]. apply Byte.byte_dec_bl in Hxy. by subst.
  - intros [= -> ->]. split; [by apply Byte.byte_dec_lb | done].
Qed.

Lemma HasSuffix_app (s suffix : bytes) : HasSuffix (s ++ suffix) suffix = true.
Proof.
  unfold HasSuffix. rewrite length_app. apply andb_true_iff. split.
  - apply Nat.leb_le. lia.
  - replace (length s + length suffix - length suffix)%nat with (length s) by lia.
    rewrite drop_app_length. by apply Equal_eq.
Qed.

Lemma HasSuffix_inv (s suffix : bytes) :
  HasSuffix s suffix = true -> exists pre, s = pre ++ suffix.
Proof.
  unfold HasSuffix. intros [_ Heq%Equal_eq]%andb_true_iff.
  exists (take (length s - length suffix) s).
  rewrite <- (take_drop (length s - length suffix) s) at 1. by rewrite Heq.
Qed.

(** With a pattern of one byte and an empty replacement, replacing every
    occurrence is filtering the byte out. *)
Lemma Replace_byte_all (o : byte) (n : Z) (s : bytes) :
  n < 0 ->
  Replace s o [] [] n = List.filter (fun c => negb (Byte.eqb o c)) s.
Proof.
  unfold Replace. revert n. induction s as [|c s IH]; intros n Hn; [done|].
  cbn [replace_from List.filter HasPrefix length].
  destruct (Z.eqb_spec n 0) as [->|_]; [lia|].
  replace (HasPrefix s []) with true by (by destruct s).
  rewrite andb_true_r. destruct (Byte.eqb o c); cbn [negb app].
  - apply IH. lia.
  - f_equal. by apply IH.
Qed.

(** Nothing is replaced when [n] is zero. *)
Lemma Replace_zero (o : byte) (os new : bytes) (s : bytes) :
  Replace s o os new 0 = s.
Proof.
  unfold Replace. induction s as [|c s IH]; [done|].
  cbn [replace_from]. simpl (0 =? 0). by rewrite IH.
Qed.

End BytesFacts.

Section MessageFacts.
Import gobytes egress.

Lemma removeNulls_filter (msg : bytes) :
  removeNulls msg = List.filter (fun c => negb (Byte.eqb x00 c)) msg.
Proof. unfold removeNulls. by apply Replace_byte_all. Qed.

Lemma removeNulls_no_nul (msg : bytes) : x00 ∉ removeNulls msg.
Proof.
  rewrite removeNulls_filter, list_elem_of_In, filter_In.
  intros [_ Hne]. by rewrite (Byte.byte_dec_lb eq_refl) in Hne.
Qed.

(** The bytes other than NUL stay, in their order. *)
Lemma removeNulls_keeps (msg : bytes) :
  x00 ∉ msg -> removeNulls msg = msg.
Proof.
  rewrite removeNulls_filter. induction msg as [|c msg IH]; [done|].
  intros Hnot. apply not_elem_of_cons in Hnot as [Hc Hmsg]. simpl.
  destruct (Byte.eqb x00 c) eqn:E.
  - apply Byte.byte_dec_bl in E. congruence.
  - simpl. by rewrite IH.
Qed.

Lemma appendNewline_suffix (msg : bytes) :
  HasSuffix (appendNewline msg) [x0a] = true.
Proof.
  unfold appendNewline. destruct (HasSuffix msg [x0a]) eqn:E; simpl; [done|].
  apply HasSuffix_app.
Qed.

Lemma appendNewline_elem (b : byte) (msg : bytes) :
  b ∈ appendNewline msg -> b ∈ msg \/ b = x0a.
Proof.
  unfold appendNewline. destruct (negb _); [|by left].
  rewrite elem_of_app, list_elem_of_singleton. tauto.
Qed.

Example removeNulls_scenario :
  appendNewline (removeNulls ["a"; x00; "b"; x00]%byte) = ["a"; "b"; x0a]%byte.
Proof. reflexivity. Qed.

Example appendNewline_kept :
  appendNewline (removeNulls ["h"; "i"; x0a]%byte) = ["h"; "i"; x0a]%byte.
Proof. reflexivity. Qed.

(** C8. For every log payload, the message of the frame,
    [appendNewline (removeNulls payload)], ends with the byte ['\n'] and
    holds no byte [0x00]. *)
Theorem message_newline_no_nul (payload : bytes) :
  let msg := appendNewline (removeNulls payload) in
  HasSuffix msg [x0a] = true
  /\ (exists pre, msg = pre ++ [x0a])
  /\ x00 ∉ msg.
Proof.
  intros msg. split; [apply appendNewline_suffix|]. split.
  - apply HasSuffix_inv, appendNewline_suffix.
  - intros [Hin|Heq]%appendNewline_elem; [|discriminate].
    by apply removeNulls_no_nul in Hin.
Qed.

(** This is the message that [Write] hands to the encoder. *)
Lemma buildMessage_Message `{GoLib} w env l :
  rfc5424.Message_ (buildMessage w env l)
  = appendNewline (removeNulls (loggregator_v2.Payload l)).
Proof. reflexivity. Qed.

End MessageFacts.

(** ** The drain writer *)

Section WriterFacts.
Import loggregator_v2 egress.

Lemma generatePriority_OUT : generatePriority Log_OUT = 14.
Proof. reflexivity. Qed.

Lemma generatePriority_ERR : generatePriority Log_ERR = 11.
Proof. reflexivity. Qed.

Lemma generatePriority_unknown (t : Log_Type) :
  t <> Log_OUT -> t <> Log_ERR -> generatePriority t = -1.
Proof.
  intros HO HE. unfold generatePriority.
  destruct (Z.eqb_spec t Log_OUT); [done|].
  by destruct (Z.eqb_spec t Log_ERR).
Qed.

Lemma connect_closed (w : TCPWriter) (dials : list DialResult) :
  closed w = true ->
  connect w dials = ([], w, Returned (ConnErr "attempting connect after close")).
Proof. intros Hc. destruct dials; simpl; by rewrite Hc. Qed.

Lemma connect_retry (w : TCPWriter) (errs : list Err) (rest : list DialResult) :
  closed w = false ->
  connect w (failing errs ++ rest)
  = let '(ev, w', r) := connect w rest in
    (retries w (length errs) ++ ev, w', r).
Proof.
  intros Hc. induction errs as [|e errs IH]; simpl.
  - by destruct (connect w rest) as [[ev w'] r].
  - rewrite Hc, IH. by destruct (connect w rest) as [[ev w'] r].
Qed.

(** After [n] failed dials the loop has slept [n] minutes. *)
Lemma slept_retries (w : TCPWriter) (n : nat) :
  slept (retries w n) = Z.of_nat n * Minute.
Proof. induction n as [|n IH]; [done|]. cbn [retries slept]. lia. Qed.

(** The loop does return once a dial succeeds: it has the connection and
    keeps it in the writer. *)
Lemma connect_succeeds (w : TCPWriter) (errs : list Err) (c : Conn)
    (rest : list DialResult) :
  closed w = false ->
  connect w (failing errs ++ DialOk c :: rest)
  = (retries w (length errs)
       ++ [EvDial (url_Host w); EvLog "created conn to syslog drain: %s"],
     set_conn w (Some c), Returned (GotConn c)).
Proof. intros Hc. rewrite connect_retry by done. simpl. by rewrite Hc. Qed.

(** C5. In [connect], at every dial failure: when the context is done the
    dial error is returned at once, with no sleep; otherwise the writer
    sleeps one minute and dials again.  When [Close] was called, [connect]
    returns an error without dialling. *)
Theorem connect_dial_failure (w : TCPWriter) (errs : list Err) (e : Err)
    (rest : list DialResult) :
  Minute = 60 * 1000000000
  /\ (closed w = true ->
      connect w rest
      = ([], w, Returned (ConnErr "attempting connect after close")))
  /\ (closed w = false ->
      connect w (failing errs ++ DialErr e true :: rest)
      = (retries w (length errs) ++ [EvDial (url_Host w)], w,
         Returned (ConnErr e)))
  /\ (closed w = false ->
      connect w (failing errs ++ DialErr e false :: rest)
      = let '(ev, w', r) := connect w rest in
        (retries w (length errs)
           ++ [EvDial (url_Host w);
               EvLog "failed to connect to %s, retrying in %s: %s";
               EvSleep Minute] ++ ev, w', r)).
Proof.
  split; [reflexivity|]. split; [apply connect_closed|]. split; intros Hc.
  - rewrite connect_retry by done. simpl. by rewrite Hc.
  - rewrite connect_retry by done. simpl. rewrite Hc.
    by destruct (connect w rest) as [[ev w'] r].
Qed.

Lemma connect_dial_failure_witness :
  connect (set_closed samples.writer true) [DialOk 7%nat]
  = ([], set_closed samples.writer true,
     Returned (ConnErr "attempting connect after close"))
  /\ connect samples.writer
       (failing ["refused"] ++ DialErr "timeout" true :: [DialOk 7%nat])
     = ([EvDial "example.com:1234";
         EvLog "failed to connect to %s, retrying in %s: %s";
         EvSleep 60000000000;
         EvDial "example.com:1234"],
        samples.writer, Returned (ConnErr "timeout"))
  /\ connect samples.writer
       (failing [] ++ DialErr "refused" false :: [DialOk 7%nat])
     = ([EvDial "example.com:1234";
         EvLog "failed to connect to %s, retrying in %s: %s";
         EvSleep 60000000000;
         EvDial "example.com:1234";
         EvLog "created conn to syslog drain: %s"],
        samples.connected, Returned (GotConn 7%nat)).
Proof.
  split; [|split].
  - apply (connect_dial_failure (set_closed samples.writer true) [] ""
             [DialOk 7%nat]).
    reflexivity.
  - apply (connect_dial_failure samples.writer ["refused"] "timeout"
             [DialOk 7%nat]).
    reflexivity.
  - destruct (connect_dial_failure samples.writer [] "refused" [DialOk 7%nat])
      as (_ & _ & _ & Hretry).
    exact (Hretry eq_refl).
Defined.

Context `{GoLib}.

(** C6. For an envelope that is not a log, [Write] returns [nil], does
    nothing to the outside world (no frame, no dial) and leaves the writer
    as it was. *)
Theorem Write_non_log (w : TCPWriter) (env : option Envelope) (io : WriteIO) :
  GetLog env = None ->
  Write w env io = ([], w, Returned None).
Proof. intros Hlog. unfold Write. by rewrite Hlog. Qed.

(** The envelopes that are not a log. *)
Lemma GetLog_None (env : option Envelope) :
  GetLog env = None <->
  match env with
  | None => True
  | Some e =>
      match Message e with
      | Some (Envelope_Log (Some _)) => False
      | _ => True
      end
  end.
Proof.
  unfold GetLog, GetMessage. destruct env as [e|]; [|by split].
  destruct (Message e) as [[[l|]|c|g|t]|]; by split.
Qed.

Lemma Close_closed_writer (w : TCPWriter) (closeRes : error) :
  closed_writer (Close w closeRes).1.2.
Proof.
  unfold closed_writer, Close, connClose. simpl.
  by destruct (conn w) eqn:E.
Qed.

Lemma Write_closed_writer (w : TCPWriter) (env : option Envelope) (io : WriteIO) :
  closed_writer w ->
  Write w env io
  = ([], w,
     Returned (match GetLog env with
               | Some _ => Some "attempting connect after close"
               | None => None
               end)).
Proof.
  intros [Hclosed Hconn]. unfold Write, connection.
  destruct (GetLog env); [|done].
  by rewrite Hconn, connect_closed.
Qed.

Lemma Close_closed_writer_idem (w : TCPWriter) (closeRes : error) :
  closed_writer w -> Close w closeRes = ([], w, None).
Proof.
  intros [Hclosed Hconn]. unfold Close, connClose. destruct w; simpl in *.
  by subst.
Qed.

(** C2, as the code has it.  After [Close], whatever the owner calls next
    and however often: every [Write] of a log returns the error of a closed
    writer, every [Write] of another envelope returns [nil], and every
    further [Close] returns [nil]; none of these calls does anything to the
    outside world, and the writer stays as [Close] left it. *)
Theorem Write_after_Close (w : TCPWriter) (closeRes : error) (cs : list Call) :
  let w1 := (Close w closeRes).1.2 in
  calls w1 cs = (map (fun c => ([], Returned (closed_answer c))) cs, w1).
Proof.
  intros w1. pose proof (Close_closed_writer w closeRes) as Hw1. fold w1 in Hw1.
  induction cs as [|[env io|closeRes'] cs IH]; [done| |]; cbn [calls call map].
  - rewrite Write_closed_writer by done. by rewrite IH.
  - rewrite Close_closed_writer_idem by done. by rewrite IH.
Qed.

End WriterFacts.


Section WriterFrames.
Import loggregator_v2 egress.
Context `{GoLib}.

Lemma frames_app (tr1 tr2 : list Event) :
  frames (tr1 ++ tr2) = frames tr1 ++ frames tr2.
Proof. apply List.filter_app. Qed.

Lemma frames_retries (w : TCPWriter) (n : nat) : frames (retries w n) = [].
Proof. by induction n. Qed.

(** Connecting puts nothing on a connection. *)
Lemma frames_connect (w : TCPWriter) (dials : list DialResult) :
  frames (connect w dials).1.1 = [].
Proof.
  induction dials as [|[c|e [|]] rest IH]; simpl; destruct (closed w); try done.
  by destruct (connect w rest) as [[ev w'] r].
Qed.

Lemma frames_connection (w : TCPWriter) (dials : list DialResult) :
  frames (connection w dials).1.1 = [].
Proof. unfold connection. destruct (conn w); [done|apply frames_connect]. Qed.

(** What [Write] puts on the connection for a log, whatever its type: the
    bytes that the encoder makes of the message, when there is a connection
    and the encoder accepts the message; otherwise nothing. *)
Lemma frames_Write_log (w : TCPWriter) (env : option Envelope) (l : Log)
    (io : WriteIO) :
  GetLog env = Some l ->
  frames (Write w env io).1.1
  = match connection w (dials io) with
    | (_, _, Returned (GotConn c)) =>
        match MarshalBinary (buildMessage w env l) with
        | inl b => [EvConnWrite c b]
        | inr _ => []
        end
    | _ => []
    end.
Proof.
  intros Hlog. unfold Write. rewrite Hlog.
  pose proof (frames_connection w (dials io)) as Hc.
  destruct (connection w (dials io)) as [[ev1 w1] [[c|e]|]]; simpl in Hc |- *;
    try done.
  unfold WriteTo, connClose.
  destruct (MarshalBinary (buildMessage w env l)) as [b|e]; simpl.
  - destruct (writeRes io); simpl.
    + destruct (conn w1); simpl; rewrite !frames_app, Hc; done.
    + rewrite !frames_app, Hc. done.
  - destruct (conn w1); simpl; rewrite !frames_app, Hc; done.
Qed.

(** C1, as the code has it.  For a log whose type is neither [OUT] nor
    [ERR], [generatePriority] yields the priority -1 and [Write] makes no
    exception: it takes the connection and hands the message, with that
    priority, to the encoder.  A frame goes to the connection exactly when
    the encoder accepts the message, and it is what the encoder made of
    it. *)
Theorem Write_unknown_type (w : TCPWriter) (env : option Envelope) (l : Log)
    (io : WriteIO) :
  GetLog env = Some l -> Type_ l <> Log_OUT -> Type_ l <> Log_ERR ->
  rfc5424.Priority_ (buildMessage w env l) = -1
  /\ frames (Write w env io).1.1
     = match connection w (dials io) with
       | (_, _, Returned (GotConn c)) =>
           match MarshalBinary (buildMessage w env l) with
           | inl b => [EvConnWrite c b]
           | inr _ => []
           end
       | _ => []
       end.
Proof.
  intros Hlog HO HE. split.
  - by apply generatePriority_unknown.
  - by apply frames_Write_log.
Qed.

End WriterFrames.

Section WriterExamples.
Import loggregator_v2 egress.

(** The first scenario of the design document, with the stand-in encoder
    (which prints the time stamp as a number). *)
Example Write_happy_path :
  Write (H := samples.lib) samples.writer (samples.log Log_OUT "hello") samples.io
  = ([EvDial "example.com:1234"; EvLog "created conn to syslog drain: %s";
      EvSetWriteDeadline 7%nat 1000000000;
      EvConnWrite 7%nat
        (String.list_byte_of_string "<14>1 0 H A [APP/3] - - hello" ++ [x0a])],
     set_egressMetric samples.connected (metricemitter.Increment samples.metric 1),
     Returned None).
Proof. reflexivity. Qed.

Lemma Write_unknown_type_witness :
  rfc5424.Priority_
    (buildMessage (H := samples.lib) samples.connected (samples.log 2 "x")
       {| Payload := ["x"%byte]; Type_ := 2 |}) = -1
  /\ frames (Write (H := samples.lib) samples.connected (samples.log 2 "x")
               samples.io).1.1
     = [EvConnWrite 7%nat
          (String.list_byte_of_string "<-1>1 0 H A [APP/3] - - x" ++ [x0a])].
Proof.
  apply (Write_unknown_type (H := samples.lib) samples.connected
           (samples.log 2 "x") {| Payload := ["x"%byte]; Type_ := 2 |}
           samples.io); [reflexivity | discriminate | discriminate].
Defined.

(** C1 fails as stated: a log of type 2, written through an encoder that
    prints every priority, leaves the writer as a frame of priority -1. *)
Lemma unknown_type_frame_written :
  unknownLogType (samples.log 2 "x")
  /\ Write (H := samples.lib) samples.connected (samples.log 2 "x") samples.io
     = ([EvSetWriteDeadline 7%nat 1000000000;
         EvConnWrite 7%nat
           (String.list_byte_of_string "<-1>1 0 H A [APP/3] - - x" ++ [x0a])],
        set_egressMetric samples.connected
          (metricemitter.Increment samples.metric 1),
        Returned None).
Proof.
  split; [|reflexivity].
  exists {| Payload := ["x"%byte]; Type_ := 2 |}. by repeat split.
Qed.

(** With an encoder that refuses a negative priority no frame goes out, but
    [Write] does not pass the envelope over in silence: it returns the
    encoder's error and closes the connection. *)
Example strict_encoder_refuses :
  Write (H := samples.strict) samples.connected (samples.log 2 "x") samples.io
  = ([EvSetWriteDeadline 7%nat 1000000000; EvConnClose 7%nat],
     samples.writer, Returned (Some "invalid priority")).
Proof. reflexivity. Qed.

(** C2 fails as stated: after [Close], [Write] of a counter envelope returns
    [nil], not the error of a closed writer. *)
Lemma closed_Write_counter_nil :
  let w1 := (Close samples.connected None).1.2 in
  closed w1 = true
  /\ Write (H := samples.lib) w1 samples.counter samples.io
     = ([], w1, Returned None)
  /\ ~ (exists e, (Write (H := samples.lib) w1 samples.counter samples.io).2
                  = Returned (Some e)).
Proof.
  repeat split. intros [e He]. discriminate He.
Qed.

Lemma Write_non_log_witness :
  Write (H := samples.lib) samples.connected samples.counter samples.io
  = ([], samples.connected, Returned None).
Proof.
  apply (Write_non_log (H := samples.lib) samples.connected samples.counter
           samples.io).
  reflexivity.
Defined.

End WriterExamples.

(** ** The counter metric *)

Section CounterFacts.
Import metricemitter.

Lemma wrap64_small (z : Z) : ints.is_uint64 z -> ints.wrap64 z = z.
Proof. intros Hz. unfold ints.wrap64. by apply Z.mod_small. Qed.

Lemma wrap64_range (z : Z) : ints.is_uint64 (ints.wrap64 z).
Proof. unfold ints.wrap64, ints.is_uint64. by apply Z.mod_pos_bound. Qed.

Lemma Increment_GetDelta (m : CounterMetric) (c : Z) :
  GetDelta (Increment m c) = ints.wrap64 (GetDelta m + c).
Proof. reflexivity. Qed.

(** Increments add up, modulo the size of the counter. *)
Lemma Increment_Increment (m : CounterMetric) (a b : Z) :
  Increment (Increment m a) b = Increment m (a + b).
Proof.
  unfold Increment, set_delta, ints.wrap64. simpl. f_equal.
  rewrite Zplus_mod_idemp_l. f_equal. lia.
Qed.

Context {W : Type}.

(** The callback sees the delta in a counter envelope, and the stored delta
    is zero while it runs. *)
Lemma SendWith_callback (fn : Callback W) (now : Z) (w : W) (m : CounterMetric) :
  let env := Some (toEnvelope (set_delta m 0) now (GetDelta m)) in
  loggregator_v2.GetDelta (loggregator_v2.GetCounter env) = GetDelta m
  /\ SendWith fn now w m
     = match fn env w (set_delta m 0) with
       | (Some e, w1, m1) => (Some e, w1, Increment m1 (GetDelta m))
       | (None, w1, m1) => (None, w1, m1)
       end.
Proof. split; [reflexivity|]. unfold SendWith, GetDelta. done. Qed.

(** C10. [SendWith] swaps the stored delta for zero and passes it to the
    callback in a counter envelope.  When the callback returns an error,
    [SendWith] returns that error and adds the delta back: the stored delta
    is then what the callback left plus the delta taken out, so that with a
    callback that leaves the counter alone [GetDelta] is what it was before
    the call.  When the callback succeeds the stored delta is what the
    callback left. *)
Theorem SendWith_delta (fn : Callback W) (now : Z) (w : W) (m : CounterMetric) :
  ints.is_uint64 (GetDelta m) ->
  let env := Some (toEnvelope (set_delta m 0) now (GetDelta m)) in
  loggregator_v2.GetDelta (loggregator_v2.GetCounter env) = GetDelta m
  /\ GetDelta (set_delta m 0) = 0
  /\ match fn env w (set_delta m 0) with
     | (Some e, w1, m1) =>
         (SendWith fn now w m).1.1 = Some e
         /\ (SendWith fn now w m).1.2 = w1
         /\ GetDelta (SendWith fn now w m).2
            = ints.wrap64 (GetDelta m1 + GetDelta m)
         /\ (GetDelta m1 = 0 ->
             GetDelta (SendWith fn now w m).2 = GetDelta m)
     | (None, w1, m1) => SendWith fn now w m = (None, w1, m1)
     end.
Proof.
  intros Hrange env. split; [reflexivity|]. split; [reflexivity|].
  destruct (SendWith_callback fn now w m) as [_ ->]. fold env.
  destruct (fn env w (set_delta m 0)) as [[[e|] w1] m1]; [|done].
  cbn [fst snd]. repeat split. intros Hzero.
  rewrite Increment_GetDelta, Hzero, Z.add_0_l. by apply wrap64_small.
Qed.

End CounterFacts.

Section CounterExamples.
Import metricemitter samples.

Lemma SendWith_delta_witness :
  (SendWith failing_callback 0 tt five).1.1 = Some "send failed"
  /\ GetDelta (SendWith failing_callback 0 tt five).2 = 5.
Proof.
  pose proof (SendWith_delta failing_callback 0 tt five) as Hs.
  assert (ints.is_uint64 (GetDelta five)) as Hr by (vm_compute; split; congruence).
  destruct (Hs Hr) as (_ & _ & He & _ & _ & Hd).
  split; [exact He | apply Hd; reflexivity].
Defined.

Example SendWith_counting :
  GetDelta (SendWith counting_callback 0 tt five).2 = 8.
Proof. reflexivity. Qed.

Example SendWith_success :
  SendWith (fun _ w m => (None, w, m)) 0 tt five = (None, tt, set_delta five 0).
Proof. reflexivity. Qed.

End CounterExamples.

(** ** The subscription worker *)

Section WorkerFacts.
Import loggregator_v2 ingress.

Lemma wrap64_count (st : LoopState) :
  counting st -> ints.wrap64 (count st + 1) = count st + 1.
Proof.
  unfold counting. intros Hc. apply wrap64_small. unfold ints.is_uint64.
  change (2 ^ 64) with 18446744073709551616. lia.
Qed.

(** Saturation does not change the comparison with five seconds. *)
Lemma time_Since_five (now last : Z) :
  (5 * Second <? time_Since now last) = (5 * Second <? now - last).
Proof.
  unfold time_Since, time_Sub, ints.minInt64, ints.maxInt64, Second.
  change (2 ^ 63) with 9223372036854775808.
  destruct (Z.ltb_spec (5 * 1000000000) (now - last));
    [apply Z.ltb_lt | apply Z.ltb_ge]; lia.
Qed.

Lemma iteration_stopped (st : LoopState) (t : Tick) :
  0 < unsubscribe t -> iteration st t = ([EvLoadUnsubscribe], Return None).
Proof.
  intros Hpos. unfold iteration.
  by destruct (Z.ltb_spec 0 (unsubscribe t)); [|lia].
Qed.

Lemma iteration_RecvErr (st : LoopState) (t : Tick) (e : Err) :
  unsubscribe t <= 0 -> recv t = RecvErr e ->
  iteration st t = ([EvLoadUnsubscribe; EvRecv], Return (Some e)).
Proof.
  intros Hflag Hrecv. unfold iteration. rewrite Hrecv.
  by destruct (Z.ltb_spec 0 (unsubscribe t)); [lia|].
Qed.

Lemma iteration_non_log (st : LoopState) (t : Tick) (env : option Envelope) :
  unsubscribe t <= 0 -> recv t = RecvOk env -> GetLog env = None ->
  iteration st t = ([EvLoadUnsubscribe; EvRecv], Continue st).
Proof.
  intros Hflag Hrecv Hlog. unfold iteration. rewrite Hrecv, Hlog.
  by destruct (Z.ltb_spec 0 (unsubscribe t)); [lia|].
Qed.

Lemma iteration_log (st : LoopState) (t : Tick) (env : option Envelope) (l : Log) :
  counting st ->
  unsubscribe t <= 0 -> recv t = RecvOk env -> GetLog env = Some l ->
  iteration st t
  = if (1000 <=? count st + 1) || (5 * Second <? sinceNow t - lastEmitted st)
    then ([EvLoadUnsubscribe; EvRecv;
           EvIncCounter "ingress" (count st + 1) 2 0;
           EvLog "Ingressed %d envelopes"; EvWrite env],
          Continue {| count := 0; lastEmitted := emitNow t |})
    else ([EvLoadUnsubscribe; EvRecv; EvWrite env],
          Continue {| count := count st + 1; lastEmitted := lastEmitted st |}).
Proof.
  intros Hc Hflag Hrecv Hlog. unfold iteration.
  rewrite Hrecv, Hlog, wrap64_count, time_Since_five by done.
  by destruct (Z.ltb_spec 0 (unsubscribe t)); [lia|].
Qed.

(** C3. A round of the worker's loop that receives a log counts it and then
    sends the count to the counter [ingress] exactly when a thousand
    envelopes are counted or more than five seconds have passed since the
    last emission; the count and the time of the last emission start again.
    A round that receives another envelope counts nothing, emits nothing
    and leaves the count and the time as they are. *)
Theorem ingress_counter_emission (st : LoopState) (t : Tick)
    (env : option Envelope) :
  counting st -> unsubscribe t <= 0 -> recv t = RecvOk env ->
  let n := count st + 1 in
  let due := n = 1000 \/ 5 * Second < sinceNow t - lastEmitted st in
  match GetLog env with
  | None => iteration st t = ([EvLoadUnsubscribe; EvRecv], Continue st)
  | Some _ =>
      (due ->
       iteration st t
       = ([EvLoadUnsubscribe; EvRecv; EvIncCounter "ingress" n 2 0;
           EvLog "Ingressed %d envelopes"; EvWrite env],
          Continue {| count := 0; lastEmitted := emitNow t |}))
      /\ (~ due ->
          iteration st t
          = ([EvLoadUnsubscribe; EvRecv; EvWrite env],
             Continue {| count := n; lastEmitted := lastEmitted st |}))
  end.
Proof.
  intros Hc Hflag Hrecv n due. destruct (GetLog env) as [l|] eqn:Hlog.
  - rewrite (iteration_log st t env l) by done. fold n.
    destruct (Z.leb_spec 1000 n) as [Hn|Hn];
      destruct (Z.ltb_spec (5 * Second) (sinceNow t - lastEmitted st)) as [Ht|Ht];
      simpl; split; try done; unfold due, counting in *; intros; lia.
  - by apply (iteration_non_log st t env).
Qed.

(** The invariant holds when the loop starts and after every round. *)
Lemma counting_start (startNow : Z) :
  counting {| count := 0; lastEmitted := startNow |}.
Proof. unfold counting. simpl. lia. Qed.

Lemma iteration_counting (st st' : LoopState) (t : Tick) (ev : list Event) :
  counting st -> iteration st t = (ev, Continue st') -> counting st'.
Proof.
  intros Hc. unfold iteration.
  destruct (0 <? unsubscribe t); [done|].
  destruct (recv t) as [env|e]; [|done].
  destruct (GetLog env); [|by intros [= <- <-]].
  rewrite wrap64_count by done.
  destruct (Z.leb_spec 1000 (count st + 1)); simpl.
  - intros [= <- <-]. apply counting_start.
  - destruct (_ <? _); intros [= <- <-]; [apply counting_start|].
    unfold counting in *. simpl. lia.
Qed.

Lemma ingressed_app (tr1 tr2 : list Event) :
  ingressed (tr1 ++ tr2) = ingressed tr1 + ingressed tr2.
Proof.
  induction tr1 as [|[] tr1 IH]; simpl; rewrite ?IH; lia.
Qed.

Lemma written_app (tr1 tr2 : list Event) :
  written (tr1 ++ tr2) = written tr1 + written tr2.
Proof.
  induction tr1 as [|[] tr1 IH]; simpl; rewrite ?IH; lia.
Qed.

(** The counter receives the batched count: what has been sent to [ingress]
    and what is counted and not yet sent make up the envelopes handed to the
    writer. *)
Lemma loop_accounting (ticks : list Tick) (st : LoopState) :
  counting st ->
  exists pending,
    0 <= pending < 1000
    /\ ingressed (loop st ticks).1 + pending
       = count st + written (loop st ticks).1.
Proof.
  revert st. induction ticks as [|t rest IH]; intros st Hc.
  { exists (count st). simpl. unfold counting in Hc. lia. }
  cbn [loop]. destruct (iteration st t) as [ev [st'|e]] eqn:Hit.
  - pose proof (iteration_counting _ _ _ _ Hc Hit) as Hc'.
    destruct (IH st' Hc') as (pending & Hp & Hsum).
    destruct (loop st' rest) as [ev' r]. cbn [fst] in *.
    exists pending. split; [done|].
    rewrite ingressed_app, written_app.
    enough (ingressed ev + count st' = count st + written ev) by lia.
    clear IH Hsum. revert Hit. unfold iteration.
    destruct (0 <? unsubscribe t); [done|].
    destruct (recv t) as [env|e]; [|done].
    destruct (GetLog env); [|intros [= <- <-]; simpl; lia].
    rewrite wrap64_count by done.
    destruct (_ || _); intros [= <- <-]; simpl; lia.
  - exists (count st). cbn [fst]. split; [done|].
    enough (ingressed ev = 0 /\ written ev = 0) by lia.
    revert Hit. unfold iteration.
    destruct (0 <? unsubscribe t); [by intros [= <- <-]|].
    destruct (recv t) as [env|e']; [|by intros [= <- <-]].
    destruct (GetLog env); [|done]. by destruct (_ || _).
Qed.

End WorkerFacts.

Section WorkerRuns.
Import loggregator_v2 ingress.

(** A round that is not stopped and receives an envelope goes on to the next
    round, after one [Recv]. *)
Lemma iteration_quiet (st : LoopState) (t : Tick) :
  quiet t ->
  exists ev st',
    iteration st t = (EvLoadUnsubscribe :: EvRecv :: ev, Continue st')
    /\ List.filter isRecv ev = [].
Proof.
  intros [Hflag [env Hrecv]]. unfold iteration. rewrite Hrecv.
  destruct (Z.ltb_spec 0 (unsubscribe t)); [lia|].
  destruct (GetLog env); [|by eexists [], _].
  destruct (_ || _); by eexists _, _.
Qed.

Lemma loop_quiet (pre : list Tick) (st : LoopState) :
  Forall quiet pre ->
  exists ev st',
    length (List.filter isRecv ev) = length pre
    /\ forall rest,
         loop st (pre ++ rest)
         = let '(ev', r) := loop st' rest in (ev ++ ev', r).
Proof.
  intros Hpre. revert st. induction Hpre as [|t pre Ht _ IH]; intros st.
  - exists [], st. split; [done|]. intros rest. simpl. by destruct (loop st rest).
  - destruct (iteration_quiet st t Ht) as (ev1 & st1 & Hit & Hrecv).
    destruct (IH st1) as (ev2 & st2 & Hlen & Hloop).
    exists ((EvLoadUnsubscribe :: EvRecv :: ev1) ++ ev2), st2. split.
    + rewrite List.filter_app, length_app. simpl. rewrite Hrecv. simpl. lia.
    + intros rest. cbn [app loop]. rewrite Hit, Hloop.
      destruct (loop st2 rest) as [ev' r]. by rewrite <- !app_assoc.
Qed.

(** C9. Once a round of the loop reads a positive flag, [readWriteLoop]
    returns [nil] without a further [Recv], [attemptConnectAndRead] closes
    the stream and the writer and returns [false], and [connectAndRead]
    returns: no session is started again. *)
Theorem stop_ends_worker (binding : Binding) (s : Session)
    (pre post : list Tick) (t : Tick) (rest : list Session) :
  connectRes s = None -> receiverRes s = None ->
  ticks s = pre ++ t :: post -> Forall quiet pre -> 0 < unsubscribe t ->
  exists ev,
    length (List.filter isRecv ev) = length pre
    /\ readWriteLoop (startNow s) (ticks s)
       = (ev ++ [EvLoadUnsubscribe], Returned None)
    /\ attemptConnectAndRead binding s
       = (opening binding ++ (ev ++ [EvLoadUnsubscribe])
            ++ [EvCloseSend; EvCancel; EvWriterClose],
          Returned false)
    /\ connectAndRead binding (s :: rest)
       = (opening binding ++ (ev ++ [EvLoadUnsubscribe])
            ++ [EvCloseSend; EvCancel; EvWriterClose],
          Returned tt).
Proof.
  intros Hconn Hrecv Hticks Hpre Hstop.
  destruct (loop_quiet pre {| count := 0; lastEmitted := startNow s |} Hpre)
    as (ev & st' & Hlen & Hloop).
  assert (readWriteLoop (startNow s) (ticks s)
          = (ev ++ [EvLoadUnsubscribe], Returned None)) as Hrw.
  { unfold readWriteLoop. rewrite Hticks, Hloop. cbn [loop].
    by rewrite iteration_stopped. }
  assert (attemptConnectAndRead binding s
          = (opening binding ++ (ev ++ [EvLoadUnsubscribe])
               ++ [EvCloseSend; EvCancel; EvWriterClose],
             Returned false)) as Hat.
  { unfold attemptConnectAndRead. by rewrite Hconn, Hrecv, Hrw. }
  exists ev. repeat split; try done.
  cbn [connectAndRead]. by rewrite Hat.
Qed.

Lemma connectAndRead_restarts (binding : Binding) (before rest : list Session) :
  Forall (restarts binding) before ->
  connectAndRead binding (before ++ rest)
  = let '(ev, r) := connectAndRead binding rest in
    (session_events binding before ++ ev, r).
Proof.
  intros Hbefore. induction Hbefore as [|s before Hs _ IH]; simpl.
  - by destruct (connectAndRead binding rest).
  - unfold restarts in Hs.
    destruct (attemptConnectAndRead binding s) as [ev1 r1]. simpl in Hs. subst r1.
    rewrite IH. destruct (connectAndRead binding rest) as [ev r].
    by rewrite app_assoc.
Qed.

(** C4. When [Connect] returns an error, at the first attempt or after any
    number of sessions that were started again, [attemptConnectAndRead]
    returns [false] and [connectAndRead] returns: that [Connect] is the last
    event but for the log line, and nothing of what could follow is
    asked. *)
Theorem Connect_error_ends_worker (binding : Binding)
    (before : list Session) (s : Session) (rest : list Session) (e : Err) :
  Forall (restarts binding) before -> connectRes s = Some e ->
  attemptConnectAndRead binding s
  = ([EvConnect binding; EvLog "Failed connecting to syslog: %s"],
     Returned false)
  /\ connectAndRead binding (before ++ s :: rest)
     = (session_events binding before
          ++ [EvConnect binding; EvLog "Failed connecting to syslog: %s"],
        Returned tt).
Proof.
  intros Hbefore Hconn.
  assert (attemptConnectAndRead binding s
          = ([EvConnect binding; EvLog "Failed connecting to syslog: %s"],
             Returned false)) as Hat.
  { unfold attemptConnectAndRead. by rewrite Hconn. }
  split; [done|].
  rewrite connectAndRead_restarts by done. cbn [connectAndRead].
  by rewrite Hat.
Qed.

(** The flag counts the calls of [stop], and is positive after any number
    of them below [2^31]. *)
Lemma unsubscribe_after_count (k : nat) :
  Z.of_nat k < 2 ^ 31 -> unsubscribe_after k = Z.of_nat k.
Proof.
  induction k as [|k IH]; [done|]. intros Hk.
  unfold unsubscribe_after in *. rewrite Nat.iter_succ, IH by lia.
  unfold stop, ints.wrap32.
  change (2 ^ 31) with 2147483648 in *. change (2 ^ 32) with 4294967296.
  rewrite Z.mod_small by lia. lia.
Qed.

Lemma unsubscribe_after_positive (k : nat) :
  (0 < k)%nat -> Z.of_nat k < 2 ^ 31 -> 0 < unsubscribe_after k.
Proof. intros Hpos Hk. rewrite unsubscribe_after_count by done. lia. Qed.

End WorkerRuns.

Section WorkerExamples.
Import loggregator_v2 ingress samples.

Lemma ingress_counter_emission_witness :
  iteration almost_full tick_log
  = ([EvLoadUnsubscribe; EvRecv; EvIncCounter "ingress" 1000 2 0;
      EvLog "Ingressed %d envelopes"; EvWrite (log 0 "hello")],
     Continue {| count := 0; lastEmitted := 2 |}).
Proof.
  assert (counting almost_full) as Hc by (unfold counting; simpl; lia).
  assert (unsubscribe tick_log <= 0) as Hf by (simpl; lia).
  destruct (ingress_counter_emission almost_full tick_log (log 0 "hello")
              Hc Hf eq_refl) as [Hdue _].
  apply Hdue. left. reflexivity.
Defined.

(** A counter envelope is passed over, and so is the check: the count stays
    at 999 though the loop has waited. *)
Example iteration_counter_envelope :
  iteration {| count := 999; lastEmitted := -10 * Second |} tick_counter
  = ([EvLoadUnsubscribe; EvRecv],
     Continue {| count := 999; lastEmitted := -10 * Second |}).
Proof. reflexivity. Qed.

(** More than five seconds after the last emission, one log is enough. *)
Example iteration_after_five_seconds :
  iteration {| count := 0; lastEmitted := -5 * Second |} tick_log
  = ([EvLoadUnsubscribe; EvRecv; EvIncCounter "ingress" 1 2 0;
      EvLog "Ingressed %d envelopes"; EvWrite (log 0 "hello")],
     Continue {| count := 0; lastEmitted := 2 |}).
Proof. reflexivity. Qed.

Lemma stop_ends_worker_witness :
  exists ev,
    length (List.filter isRecv ev) = 2%nat
    /\ connectAndRead binding
         (session [tick_log; tick_counter; tick_stopped; tick_log]
            :: [session [tick_log]])
       = (opening binding ++ (ev ++ [EvLoadUnsubscribe])
            ++ [EvCloseSend; EvCancel; EvWriterClose],
          Returned tt).
Proof.
  assert (Forall quiet [tick_log; tick_counter]) as Hq.
  { repeat constructor; simpl; try lia; by eexists. }
  assert (0 < unsubscribe tick_stopped) as Hs by (simpl; lia).
  destruct (stop_ends_worker binding
              (session [tick_log; tick_counter; tick_stopped; tick_log])
              [tick_log; tick_counter] [tick_log] tick_stopped
              [session [tick_log]] eq_refl eq_refl eq_refl Hq Hs)
    as (ev & Hlen & _ & _ & Hrun).
  exists ev. split; [exact Hlen | exact Hrun].
Defined.

(** The same run, event by event: the two rounds before the stop, the round
    that reads the flag, and the end of the session; the log that the
    stream still holds and the second session are never asked for. *)
Example stopped_run :
  connectAndRead binding
    (session [tick_log; tick_counter; tick_stopped; tick_log]
       :: [session [tick_log]])
  = ([EvConnect binding; EvNext;
      EvReceiver "AHsyslog://example.com:1234/?drain-version=2.0" "A";
      EvLoadUnsubscribe; EvRecv; EvWrite (log 0 "hello");
      EvLoadUnsubscribe; EvRecv;
      EvLoadUnsubscribe;
      EvCloseSend; EvCancel; EvWriterClose],
     Returned tt).
Proof. reflexivity. Qed.

Lemma Connect_error_ends_worker_witness :
  connectAndRead binding
    (session [tick_err] :: bad_session :: [session [tick_log]])
  = ([EvConnect binding; EvNext;
      EvReceiver "AHsyslog://example.com:1234/?drain-version=2.0" "A";
      EvLoadUnsubscribe; EvRecv;
      EvLog "Subscriber read/write loop has unexpectedly closed: %s";
      EvCloseSend; EvCancel; EvWriterClose;
      EvConnect binding; EvLog "Failed connecting to syslog: %s"],
     Returned tt).
Proof.
  assert (Forall (restarts binding) [session [tick_err]]) as Hr.
  { repeat constructor. }
  apply (Connect_error_ends_worker binding [session [tick_err]] bad_session
           [session [tick_log]] "parse error" Hr eq_refl).
Defined.

(** When the stream fails before the flag is read, the session is started
    once more; its first round reads the flag and the worker ends. *)
Example stop_after_stream_error :
  connectAndRead binding (session [tick_err] :: [session [tick_stopped]])
  = ([EvConnect binding; EvNext;
      EvReceiver "AHsyslog://example.com:1234/?drain-version=2.0" "A";
      EvLoadUnsubscribe; EvRecv;
      EvLog "Subscriber read/write loop has unexpectedly closed: %s";
      EvCloseSend; EvCancel; EvWriterClose;
      EvConnect binding; EvNext;
      EvReceiver "AHsyslog://example.com:1234/?drain-version=2.0" "A";
      EvLoadUnsubscribe;
      EvCloseSend; EvCancel; EvWriterClose],
     Returned tt).
Proof. reflexivity. Qed.

End WorkerExamples.

(** ** The version filter *)

Section VersionFilterFacts.
Import scheduler.
Context `{NetURL}.

Lemma keepDrain_true (drain : string) :
  keepDrain drain = true <->
  exists u, url_Parse drain = Some u /\ Query_Get u "drain-version" = "2.0".
Proof.
  unfold keepDrain. destruct (url_Parse drain) as [u|].
  - rewrite bool_decide_eq_true. split; [by exists u|]. by intros (? & [= <-] & ?).
  - split; [done|]. by intros (? & ? & ?).
Qed.

Lemma filterBinding_Some (b b' : Binding) :
  filterBinding b = Some b' <->
  Drains b' = List.filter keepDrain (Drains b)
  /\ Hostname b' = Hostname b /\ Drains b' <> [].
Proof.
  unfold filterBinding. destruct (List.filter keepDrain (Drains b)) as [|d ds].
  - split; [done|]. intros (? & ? & ?). congruence.
  - split.
    + by intros [= <-].
    + destruct b' as [ds' h']. simpl. by intros (-> & -> & _).
Qed.

Lemma filterBinding_None (b : Binding) :
  filterBinding b = None <-> List.filter keepDrain (Drains b) = [].
Proof.
  unfold filterBinding. by destruct (List.filter keepDrain (Drains b)).
Qed.

Lemma VersionFilter_lookup (bindings : gmap string Binding) (app : string) :
  VersionFilter bindings !! app = bindings !! app ≫= filterBinding.
Proof. apply lookup_omap. Qed.

(** C7. In the result of the version filter every drain parses and carries
    [drain-version=2.0]; an application of the result has the hostname it
    came with and the drains of that kind it came with, at least one; and
    an application whose drains are all removed, or that was not there, is
    not in the result. *)
Theorem VersionFilter_output (bindings : gmap string Binding) (app : string) :
  match VersionFilter bindings !! app with
  | Some b =>
      Drains b <> []
      /\ (forall d, d ∈ Drains b ->
            exists u, url_Parse d = Some u
                      /\ Query_Get u "drain-version" = "2.0")
      /\ exists b0, bindings !! app = Some b0
                    /\ Hostname b = Hostname b0
                    /\ Drains b = List.filter keepDrain (Drains b0)
  | None =>
      match bindings !! app with
      | Some b0 => List.filter keepDrain (Drains b0) = []
      | None => True
      end
  end.
Proof.
  rewrite VersionFilter_lookup. destruct (bindings !! app) as [b0|]; [|done].
  simpl. destruct (filterBinding b0) as [b|] eqn:Hf.
  - apply filterBinding_Some in Hf as (Hd & Hh & Hne).
    split; [done|]. split; [|by exists b0].
    intros d Hin. apply keepDrain_true.
    rewrite Hd, list_elem_of_In, filter_In in Hin. tauto.
  - by apply filterBinding_None.
Qed.

(** An application whose drains all fail to parse is not in the result. *)
Lemma VersionFilter_unparseable (bindings : gmap string Binding) (app : string)
    (b0 : Binding) :
  bindings !! app = Some b0 ->
  Forall (fun d => url_Parse d = None) (Drains b0) ->
  VersionFilter bindings !! app = None.
Proof.
  intros Hb0 Hall. rewrite VersionFilter_lookup, Hb0. simpl.
  apply filterBinding_None. induction Hall as [|d ds Hd _ IH]; [done|].
  simpl. unfold keepDrain at 1. by rewrite Hd.
Qed.

End VersionFilterFacts.

Section VersionFilterExamples.
Import scheduler samples.

(** The two specs of the filter's test suite that give it bindings. *)
Example filters_out_other_versions :
  VersionFilter (H := net_url) versions_input = versions_expected.
Proof. by vm_compute. Qed.

Example ignores_malformed_drains :
  VersionFilter (H := net_url) malformed_input = malformed_expected.
Proof. by vm_compute. Qed.

Example passes_the_error_on :
  FetchBindings (H := net_url) (inr "Woop") = inr "Woop".
Proof. reflexivity. Qed.

End VersionFilterExamples.

(** * Further properties *)

(** ** The drain writer, beyond the claims *)

Section WriterMore.
Import loggregator_v2 egress egress_ext.

(** X1. The priority tells the log type: it is 14 exactly for [OUT], 11
    exactly for [ERR], and -1 exactly for every other type. *)
Theorem generatePriority_iff (t : Log_Type) :
  (generatePriority t = 14 <-> t = Log_OUT)
  /\ (generatePriority t = 11 <-> t = Log_ERR)
  /\ (generatePriority t = -1 <-> t <> Log_OUT /\ t <> Log_ERR).
Proof.
  unfold generatePriority, Log_OUT, Log_ERR.
  destruct (Z.eqb_spec t 0) as [->|H0]; [repeat split; try done; lia|].
  destruct (Z.eqb_spec t 1) as [->|H1]; [repeat split; try done; lia|].
  repeat split; try done; lia.
Qed.

Lemma slept_app (tr1 tr2 : list Event) :
  slept (tr1 ++ tr2) = slept tr1 + slept tr2.
Proof. induction tr1 as [|[] tr1 IH]; simpl; rewrite ?IH; lia. Qed.

Lemma dialled_retries (w : TCPWriter) (n : nat) :
  length (dialled (retries w n)) = n.
Proof. induction n as [|n IH]; [done|]. simpl. by rewrite IH. Qed.

(** X2. When [n] dials fail while the context lives and the next succeeds,
    [connect] returns that connection and keeps it in the writer; it has
    dialled [n + 1] times and slept [n] minutes in all. *)
Theorem connect_after_failures (w : TCPWriter) (errs : list Err) (c : Conn)
    (rest : list DialResult) :
  closed w = false ->
  let r := connect w (failing errs ++ DialOk c :: rest) in
  r.2 = Returned (GotConn c)
  /\ conn r.1.2 = Some c
  /\ length (dialled r.1.1) = S (length errs)
  /\ slept r.1.1 = Z.of_nat (length errs) * Minute.
Proof.
  intros Hc r. unfold r. rewrite connect_succeeds by done. cbn [fst snd].
  repeat split.
  - unfold dialled. rewrite List.filter_app, length_app.
    fold (dialled (retries w (length errs))). rewrite dialled_retries.
    simpl. lia.
  - rewrite slept_app, slept_retries. simpl. lia.
Qed.

Lemma connect_after_failures_witness :
  let r := connect samples.writer
             (failing ["refused"; "refused"] ++ DialOk 9%nat :: []) in
  r.2 = Returned (GotConn 9%nat)
  /\ conn r.1.2 = Some 9%nat
  /\ length (dialled r.1.1) = 3%nat
  /\ slept r.1.1 = 2 * Minute.
Proof.
  apply (connect_after_failures samples.writer ["refused"; "refused"] 9%nat []).
  reflexivity.
Defined.

(** Connecting touches nothing of the writer but its connection. *)
Lemma connect_egressMetric (w : TCPWriter) (dials : list DialResult) :
  egressMetric (connect w dials).1.2 = egressMetric w.
Proof.
  induction dials as [|[c|e [|]] rest IH]; simpl; destruct (closed w); try done.
  destruct (connect w rest) as [[ev w'] r]. by simpl in *.
Qed.

Context `{GoLib}.

(** X3. With a connection, a log that the encoder accepts and a write that
    succeeds, [Write] sets the deadline, puts exactly the encoder's bytes on
    that connection, counts one on the egress metric and returns [nil]; it
    does not dial and keeps the connection. *)
Theorem Write_connected (w : TCPWriter) (env : option Envelope) (l : Log)
    (io : WriteIO) (c : Conn) (b : bytes) :
  GetLog env = Some l -> conn w = Some c ->
  MarshalBinary (buildMessage w env l) = inl b -> writeRes io = None ->
  Write w env io
  = ([EvSetWriteDeadline c (now io + ioTimeout w); EvConnWrite c b],
     set_egressMetric w (metricemitter.Increment (egressMetric w) 1),
     Returned None).
Proof.
  intros Hlog Hconn Hm Hw. unfold Write, connection, WriteTo.
  by rewrite Hlog, Hconn, Hm, Hw.
Qed.

(** X4. When the encoder refuses the message or the write fails, [Write]
    returns that error, closes the connection it held and forgets it, so
    that the next [Write] connects again; the egress metric and the flag
    [closed] stay as they were. *)
Theorem Write_failure_closes (w : TCPWriter) (env : option Envelope) (l : Log)
    (io : WriteIO) (c : Conn) (e : Err) :
  GetLog env = Some l -> conn w = Some c ->
  match MarshalBinary (buildMessage w env l) with
  | inr e' => e' = e
  | inl _ => writeRes io = Some e
  end ->
  exists ev,
    Write w env io = (ev ++ [EvConnClose c], set_conn w None, Returned (Some e))
    /\ dialled ev = [].
Proof.
  intros Hlog Hconn Hfail. unfold Write, connection, WriteTo, connClose.
  rewrite Hlog, Hconn.
  destruct (MarshalBinary (buildMessage w env l)) as [b|e'].
  - rewrite Hfail, Hconn.
    by exists [EvSetWriteDeadline c (now io + ioTimeout w); EvConnWrite c b].
  - subst e'. rewrite Hconn.
    by exists [EvSetWriteDeadline c (now io + ioTimeout w)].
Qed.

(** X5. A writer that is open and has no connection connects on [Write]:
    after the failed dials and their back-off it dials once more, keeps the
    connection, and writes the frame on it. *)
Theorem Write_connects (w : TCPWriter) (env : option Envelope) (l : Log)
    (io : WriteIO) (errs : list Err) (c : Conn) (rest : list DialResult)
    (b : bytes) :
  conn w = None -> closed w = false -> GetLog env = Some l ->
  dials io = failing errs ++ DialOk c :: rest ->
  MarshalBinary (buildMessage w env l) = inl b -> writeRes io = None ->
  Write w env io
  = (retries w (length errs)
       ++ [EvDial (url_Host w); EvLog "created conn to syslog drain: %s";
           EvSetWriteDeadline c (now io + ioTimeout w); EvConnWrite c b],
     set_egressMetric (set_conn w (Some c))
       (metricemitter.Increment (egressMetric w) 1),
     Returned None).
Proof.
  intros Hconn Hclosed Hlog Hdials Hm Hw. unfold Write, connection, WriteTo.
  rewrite Hlog, Hconn, Hdials, connect_succeeds by done.
  change (buildMessage w env l) with (buildMessage w env l) in Hm.
  rewrite Hm, Hw. cbn [app]. by rewrite <- !app_assoc.
Qed.

(** X6. While the writer holds a connection, [Write] never dials and never
    sleeps, it always returns, and whatever it writes goes to that
    connection. *)
Theorem Write_keeps_to_conn (w : TCPWriter) (env : option Envelope)
    (io : WriteIO) (c : Conn) :
  conn w = Some c ->
  dialled (Write w env io).1.1 = []
  /\ sleeps (Write w env io).1.1 = []
  /\ (Write w env io).2 <> Running
  /\ Forall (on_conn c) (Write w env io).1.1.
Proof.
  intros Hconn. unfold Write, connection, WriteTo, connClose.
  destruct (GetLog env) as [l|]; [|by repeat split].
  rewrite Hconn.
  destruct (MarshalBinary (buildMessage w env l)) as [b|e'];
    [destruct (writeRes io)|]; rewrite ?Hconn; cbn;
    repeat split; try done; by repeat constructor.
Qed.

(** X7. The egress metric counts the frames written: a [Write] that returns
    [nil] for a log has put exactly one frame on the connection and counted
    one; every other [Write] leaves the metric as it was. *)
Theorem egressMetric_counts (w : TCPWriter) (env : option Envelope)
    (io : WriteIO) :
  let '(tr, w', r) := Write w env io in
  (is_Some (GetLog env) /\ r = Returned None
   /\ length (frames tr) = 1%nat
   /\ egressMetric w' = metricemitter.Increment (egressMetric w) 1)
  \/ ((GetLog env = None \/ r <> Returned None)
      /\ egressMetric w' = egressMetric w).
Proof.
  pose proof (frames_connection w (dials io)) as Hfc.
  unfold Write, WriteTo, connClose.
  destruct (GetLog env) as [l|]; [|cbn; right; by split; [left|]].
  assert (egressMetric (connection w (dials io)).1.2 = egressMetric w) as Hm.
  { unfold connection. destruct (conn w); [done|]. apply connect_egressMetric. }
  destruct (connection w (dials io)) as [[ev1 w1] [[c|e]|]];
    cbn [fst snd] in Hm, Hfc.
  - destruct (MarshalBinary (buildMessage w env l)) as [b|e'].
    + destruct (writeRes io) as [e|].
      * destruct (conn w1); cbn; right; (split; [by right|done]).
      * cbn. left. rewrite !frames_app, Hfc. cbn. by rewrite Hm.
    + destruct (conn w1); cbn; right; (split; [by right|done]).
  - cbn. right. split; [by right|done].
  - cbn. right. split; [by right|done].
Qed.

(** X8. A writer as [NewTCPWriter] makes it has no connection and is open;
    the frames it builds carry the hostname and the application of the
    binding, and its first [Write] of a log dials the host of the drain once.
    A drain that does not parse gives no writer but the error. *)
Theorem NewTCPWriter_lazy (parseHost : string -> string + Err)
    (binding : ingress.Binding) (timeout : Z)
    (metric : metricemitter.CounterMetric) :
  match parseHost (ingress.Drain binding) with
  | inr err => NewTCPWriter parseHost binding timeout metric = inr err
  | inl host =>
      exists w,
        NewTCPWriter parseHost binding timeout metric = inl w
        /\ conn w = None /\ closed w = false
        /\ forall env l io c rest,
             GetLog env = Some l -> dials io = DialOk c :: rest ->
             rfc5424.Hostname (buildMessage w env l) = ingress.Hostname binding
             /\ rfc5424.AppName (buildMessage w env l) = ingress.AppId binding
             /\ dialled (Write w env io).1.1 = [EvDial host]
  end.
Proof.
  unfold NewTCPWriter. destruct (parseHost (ingress.Drain binding)) as [host|err];
    [|done].
  eexists. split; [done|]. split; [done|]. split; [done|].
  intros env l io c rest Hlog Hdials. split; [done|]. split; [done|].
  unfold Write, connection, WriteTo, connClose. rewrite Hlog, Hdials. cbn.
  destruct (MarshalBinary _); [destruct (writeRes io)|]; done.
Qed.

End WriterMore.

Section WriterMoreExamples.
Import loggregator_v2 egress egress_ext.

Lemma Write_connected_witness :
  Write (H := samples.lib) samples.connected (samples.log 0 "x") samples.io
  = ([EvSetWriteDeadline 7%nat 1000000000;
      EvConnWrite 7%nat
        (String.list_byte_of_string "<14>1 0 H A [APP/3] - - x" ++ [x0a])],
     set_egressMetric samples.connected
       (metricemitter.Increment samples.metric 1),
     Returned None).
Proof.
  apply (Write_connected (H := samples.lib) samples.connected
           (samples.log 0 "x") cases.x_log samples.io 7%nat);
    reflexivity.
Defined.

Lemma Write_failure_closes_witness :
  exists ev,
    Write (H := samples.lib) samples.connected (samples.log 0 "x")
      cases.failing_io
    = (ev ++ [EvConnClose 7%nat], samples.writer, Returned (Some "broken pipe"))
    /\ dialled ev = [].
Proof.
  apply (Write_failure_closes (H := samples.lib) samples.connected
           (samples.log 0 "x") cases.x_log cases.failing_io 7%nat
           "broken pipe"); reflexivity.
Defined.

Lemma Write_connects_witness :
  Write (H := samples.lib) samples.writer (samples.log 0 "x") cases.retry_io
  = (retries samples.writer 2
       ++ [EvDial "example.com:1234"; EvLog "created conn to syslog drain: %s";
           EvSetWriteDeadline 9%nat 1000000005;
           EvConnWrite 9%nat
             (String.list_byte_of_string "<14>1 0 H A [APP/3] - - x" ++ [x0a])],
     set_egressMetric (set_conn samples.writer (Some 9%nat))
       (metricemitter.Increment samples.metric 1),
     Returned None).
Proof.
  apply (Write_connects (H := samples.lib) samples.writer (samples.log 0 "x")
           cases.x_log cases.retry_io ["refused"; "refused"] 9%nat []);
    reflexivity.
Defined.

Lemma Write_keeps_to_conn_witness :
  dialled (Write (H := samples.lib) samples.connected (samples.log 0 "x")
             cases.retry_io).1.1 = []
  /\ sleeps (Write (H := samples.lib) samples.connected (samples.log 0 "x")
               cases.retry_io).1.1 = []
  /\ (Write (H := samples.lib) samples.connected (samples.log 0 "x")
        cases.retry_io).2 <> Running
  /\ Forall (on_conn 7%nat)
       (Write (H := samples.lib) samples.connected (samples.log 0 "x")
          cases.retry_io).1.1.
Proof.
  apply (Write_keeps_to_conn (H := samples.lib) samples.connected
           (samples.log 0 "x") cases.retry_io 7%nat).
  reflexivity.
Defined.

Lemma NewTCPWriter_lazy_witness :
  NewTCPWriter cases.parseHost samples.binding 1000000000 samples.metric
  = inl samples.writer
  /\ dialled (Write (H := samples.lib) samples.writer (samples.log 0 "x")
                samples.io).1.1
     = [EvDial "example.com:1234"].
Proof.
  pose proof (NewTCPWriter_lazy (H := samples.lib) cases.parseHost
                samples.binding 1000000000 samples.metric) as Hnew.
  cbn in Hnew. destruct Hnew as (w & Hw & _ & _ & Hfirst).
  injection Hw as <-. split; [reflexivity|].
  apply (Hfirst (samples.log 0 "x") cases.x_log samples.io 7%nat []);
    reflexivity.
Defined.

(** A drain without a scheme gives no writer. *)
Example NewTCPWriter_bad_drain :
  NewTCPWriter cases.parseHost
    {| ingress.AppId := "A"; ingress.Hostname := "H";
       ingress.Drain := "://some-bad-url/?drain-version=2.0" |}
    1000000000 samples.metric
  = inr "parse: missing protocol scheme".
Proof. reflexivity. Qed.

End WriterMoreExamples.

(** ** The message of a frame, beyond the claims *)

Section MessageMore.
Import gobytes egress.

Lemma removeNulls_length (msg : bytes) :
  (length (removeNulls msg) <= length msg)%nat.
Proof.
  rewrite removeNulls_filter. induction msg as [|c msg IH]; [done|].
  simpl. destruct (negb _); simpl; lia.
Qed.

Lemma appendNewline_id (msg : bytes) :
  HasSuffix msg [x0a] = true -> appendNewline msg = msg.
Proof. intros Hs. unfold appendNewline. by rewrite Hs. Qed.

(** X9. Making the message of a frame is idempotent: a payload that went
    through [removeNulls] and [appendNewline] comes out of them
    unchanged. *)
Theorem message_idempotent (payload : bytes) :
  appendNewline (removeNulls (appendNewline (removeNulls payload)))
  = appendNewline (removeNulls payload).
Proof.
  assert (x00 ∉ appendNewline (removeNulls payload)) as Hnul.
  { intros [Hin|Heq]%appendNewline_elem; [|discriminate].
    by apply removeNulls_no_nul in Hin. }
  rewrite (removeNulls_keeps _ Hnul).
  apply appendNewline_id, appendNewline_suffix.
Qed.

(** X10. The message is never empty and at most one byte longer than the
    payload; a payload without NUL that ends in a newline is the message as
    it stands, and one without NUL that does not end in a newline gets
    exactly one. *)
Theorem message_length (payload : bytes) :
  let msg := appendNewline (removeNulls payload) in
  (1 <= length msg <= length payload + 1)%nat
  /\ (x00 ∉ payload ->
      if HasSuffix payload [x0a] then msg = payload
      else msg = payload ++ [x0a]).
Proof.
  intros msg. split.
  - pose proof (removeNulls_length payload) as Hlen. unfold msg, appendNewline.
    destruct (HasSuffix (removeNulls payload) [x0a]) eqn:Hs; simpl.
    + apply HasSuffix_inv in Hs as [pre Hpre]. rewrite Hpre in *.
      rewrite length_app in *. simpl in *. lia.
    + rewrite length_app. simpl. lia.
  - intros Hnul. unfold msg. rewrite (removeNulls_keeps _ Hnul).
    unfold appendNewline. by destruct (HasSuffix payload [x0a]).
Qed.

End MessageMore.

(** ** The subscription worker, beyond the claims *)

Section WorkerMore.
Import loggregator_v2 ingress ingress_ext.

Lemma wrap32_succ (z : Z) : ints.wrap32 (ints.wrap32 z + 1) = ints.wrap32 (z + 1).
Proof.
  unfold ints.wrap32. f_equal.
  replace ((z + 2 ^ 31) mod 2 ^ 32 - 2 ^ 31 + 1 + 2 ^ 31)
    with ((z + 2 ^ 31) mod 2 ^ 32 + 1) by lia.
  rewrite Zplus_mod_idemp_l. f_equal. lia.
Qed.

(** X11. After [k] calls of the function that [Start] returns, the flag
    holds [k] reduced to an [int32]: the calls are counted, and the count
    wraps round to the negative numbers at [2^31]. *)
Theorem unsubscribe_after_wrap (k : nat) :
  unsubscribe_after k = ints.wrap32 (Z.of_nat k).
Proof.
  induction k as [|k IH]; [done|].
  unfold unsubscribe_after in *. rewrite Nat.iter_succ, IH. unfold stop.
  rewrite wrap32_succ. f_equal. lia.
Qed.

(** X12. The counter [ingress] gets the batched count: in every run of
    [readWriteLoop], what has been sent to the counter and what is counted
    and not yet sent, fewer than a thousand, make up the envelopes handed to
    the writer. *)
Theorem readWriteLoop_accounting (startNow : Z) (ticks : list Tick) :
  exists pending,
    0 <= pending < 1000
    /\ ingressed (readWriteLoop startNow ticks).1 + pending
       = written (readWriteLoop startNow ticks).1.
Proof.
  destruct (loop_accounting ticks {| count := 0; lastEmitted := startNow |}
              (counting_start startNow)) as (pending & Hp & Hsum).
  exists pending. split; [done|]. unfold readWriteLoop. by rewrite Hsum.
Qed.

Lemma loop_batches (ticks : list Tick) (st : LoopState) :
  counting st -> Forall batch (loop st ticks).1.
Proof.
  revert st. induction ticks as [|t rest IH]; intros st Hc; [by constructor|].
  cbn [loop]. destruct (iteration st t) as [ev [st'|e]] eqn:Hit.
  - pose proof (iteration_counting _ _ _ _ Hc Hit) as Hc'.
    specialize (IH st' Hc'). destruct (loop st' rest) as [ev' r]. cbn [fst] in *.
    apply Forall_app. split; [|done].
    revert Hit. unfold iteration.
    destruct (0 <? unsubscribe t); [done|].
    destruct (recv t) as [env|e]; [|done].
    destruct (GetLog env); [|intros [= <- <-]; by repeat constructor].
    rewrite wrap64_count by done.
    unfold counting in Hc.
    destruct (_ || _); intros [= <- <-]; repeat constructor; lia.
  - cbn [fst]. revert Hit. unfold iteration.
    destruct (0 <? unsubscribe t); [intros [= <- <-]; by repeat constructor|].
    destruct (recv t) as [env|e']; [|intros [= <- <-]; by repeat constructor].
    destruct (GetLog env); [|done]. by destruct (_ || _).
Qed.

(** X13. Every emission of a run of [readWriteLoop] goes to the counter
    [ingress] with the version 2.0 and is of at least one and at most a
    thousand envelopes. *)
Theorem readWriteLoop_batches (startNow : Z) (ticks : list Tick) :
  Forall batch (readWriteLoop startNow ticks).1.
Proof. apply loop_batches, counting_start. Qed.

Lemma written_envs_app (tr1 tr2 : list Event) :
  written_envs (tr1 ++ tr2) = written_envs tr1 ++ written_envs tr2.
Proof. induction tr1 as [|[] tr1 IH]; simpl; by rewrite ?IH. Qed.

(** X14. The worker hands the writer logs only, in the order in which the
    stream delivers them and each once: the envelopes written are a prefix
    of the logs that the stream holds, and all of them when no round is
    stopped or fails. *)
Theorem loop_forwards_logs (ticks : list Tick) (st : LoopState) :
  written_envs (loop st ticks).1 `prefix_of` logs_of ticks
  /\ Forall (fun env => is_Some (GetLog env)) (written_envs (loop st ticks).1)
  /\ (Forall quiet ticks -> written_envs (loop st ticks).1 = logs_of ticks).
Proof.
  revert st. induction ticks as [|t rest IH]; intros st; [by repeat split|].
  cbn [loop logs_of]. unfold iteration.
  destruct (Z.ltb_spec 0 (unsubscribe t)) as [Hstop|Hgo].
  { cbn. split; [apply prefix_nil|]. split; [done|].
    intros [[Hq _] _]%Forall_cons. lia. }
  destruct (recv t) as [env|e] eqn:Hrecv.
  2:{ cbn. split; [apply prefix_nil|]. split; [done|].
      intros [[_ [env' He]] _]%Forall_cons. congruence. }
  destruct (GetLog env) as [l|] eqn:Hlog.
  - destruct (_ || _);
      [destruct (IH {| count := 0; lastEmitted := emitNow t |})
         as (Hpre & Hall & Heq)
      |destruct (IH {| count := ints.wrap64 (count st + 1);
                       lastEmitted := lastEmitted st |})
         as (Hpre & Hall & Heq)];
      destruct (loop _ rest) as [ev' r]; cbn [fst] in *;
      rewrite written_envs_app; cbn; (split; [by apply prefix_cons|]);
      (split; [constructor; [by rewrite Hlog|done]|]);
      intros [_ Hq]%Forall_cons; by rewrite Heq.
  - destruct (IH st) as (Hpre & Hall & Heq).
    destruct (loop st rest) as [ev' r]. cbn [fst] in *.
    rewrite written_envs_app. cbn. split; [done|]. split; [done|].
    intros [_ Hq]%Forall_cons. by apply Heq.
Qed.

Lemma loop_no_cleanup (p : Event -> bool) (ticks : list Tick) (st : LoopState) :
  p EvLoadUnsubscribe = false -> p EvRecv = false ->
  (forall n s a b, p (EvIncCounter n s a b) = false) ->
  (forall s, p (EvLog s) = false) -> (forall env, p (EvWrite env) = false) ->
  count_of p (loop st ticks).1 = 0%nat.
Proof.
  intros HL HR HI HG HW. revert st.
  induction ticks as [|t rest IH]; intros st; [done|].
  cbn [loop]. unfold iteration.
  destruct (0 <? unsubscribe t); [cbn; by rewrite HL|].
  destruct (recv t) as [env|e]; [|cbn; by rewrite HL, HR].
  destruct (GetLog env).
  - destruct (_ || _);
      match goal with
      | |- context [loop ?s rest] =>
          specialize (IH s); destruct (loop s rest) as [ev' r]
      end; cbn [fst] in *; unfold count_of in *;
      rewrite List.filter_app, length_app, IH; cbn;
      by rewrite ?HL, ?HR, ?HI, ?HG, ?HW.
  - specialize (IH st). destruct (loop st rest) as [ev' r]. cbn [fst] in *.
    unfold count_of in *. rewrite List.filter_app, length_app, IH. cbn.
    by rewrite HL, HR.
Qed.

(** X15. A call of [attemptConnectAndRead] that returns has closed what it
    opened: the writer once when [Connect] gave one, the stream and its
    context once when [Receiver] gave one, and nothing otherwise; closing the
    writer is the last thing it does. *)
Theorem attempt_closes_what_it_opened (binding : Binding) (s : Session)
    (again : bool) :
  (attemptConnectAndRead binding s).2 = Returned again ->
  let tr := (attemptConnectAndRead binding s).1 in
  count_of isWriterClose tr
  = (match connectRes s with Some _ => 0 | None => 1 end)%nat
  /\ count_of isCloseSend tr
     = (match connectRes s, receiverRes s with
        | None, None => 1
        | _, _ => 0
        end)%nat
  /\ count_of isCancel tr = count_of isCloseSend tr
  /\ (connectRes s = None -> last tr = Some EvWriterClose).
Proof.
  unfold attemptConnectAndRead.
  destruct (connectRes s); [by repeat split|].
  destruct (receiverRes s); [by repeat split|].
  unfold readWriteLoop.
  pose proof (loop_no_cleanup isWriterClose (ticks s)
                {| count := 0; lastEmitted := startNow s |}) as HW.
  pose proof (loop_no_cleanup isCloseSend (ticks s)
                {| count := 0; lastEmitted := startNow s |}) as HS.
  pose proof (loop_no_cleanup isCancel (ticks s)
                {| count := 0; lastEmitted := startNow s |}) as HC.
  destruct (loop _ (ticks s)) as [ev [[e|]|]]; [| |done]; intros _;
    cbn [fst snd] in *; unfold count_of in *;
    rewrite ?List.filter_app, ?length_app, ?HW, ?HS, ?HC by done;
    (repeat split; try done); intros _.
  - change [EvLog "Subscriber read/write loop has unexpectedly closed: %s";
            EvCloseSend; EvCancel; EvWriterClose]
      with ([EvLog "Subscriber read/write loop has unexpectedly closed: %s";
             EvCloseSend; EvCancel] ++ [EvWriterClose]).
    rewrite !app_assoc. apply last_snoc.
  - change [EvCloseSend; EvCancel; EvWriterClose]
      with ([EvCloseSend; EvCancel] ++ [EvWriterClose]).
    rewrite !app_assoc. apply last_snoc.
Qed.

(** X16. When [Recv] fails while the worker is not stopped, the error ends
    the session and not the worker: [attemptConnectAndRead] closes the
    stream and the writer, and [connectAndRead] goes on with a new session,
    which starts with a new [Connect]. *)
Theorem Recv_error_restarts (binding : Binding) (s : Session)
    (pre post : list Tick) (t : Tick) (e : Err) (rest : list Session) :
  connectRes s = None -> receiverRes s = None ->
  ticks s = pre ++ t :: post -> Forall quiet pre ->
  unsubscribe t <= 0 -> recv t = RecvErr e ->
  restarts binding s
  /\ connectAndRead binding (s :: rest)
     = ((attemptConnectAndRead binding s).1 ++ (connectAndRead binding rest).1,
        (connectAndRead binding rest).2).
Proof.
  intros Hconn Hrecv Hticks Hpre Hflag Herr.
  destruct (loop_quiet pre {| count := 0; lastEmitted := startNow s |} Hpre)
    as (ev & st' & _ & Hloop).
  assert (restarts binding s) as Hre.
  { unfold restarts, attemptConnectAndRead, readWriteLoop.
    rewrite Hconn, Hrecv, Hticks, Hloop. cbn [loop].
    by rewrite (iteration_RecvErr st' t e). }
  split; [done|]. cbn [connectAndRead]. unfold restarts in Hre.
  destruct (attemptConnectAndRead binding s) as [tr r]. cbn [snd fst] in *.
  subst r. by destruct (connectAndRead binding rest).
Qed.

Lemma append_inj_l (s a b : string) : s +:+ a = s +:+ b -> a = b.
Proof. induction s as [|c s IH]; simpl; [done|]. intros [= Heq]. by apply IH. Qed.

(** X17. The shard id tells the drains of one application apart: two
    bindings with the same application and hostname have the same shard id
    only when they are the same binding. *)
Theorem buildShardId_inj (b1 b2 : Binding) :
  AppId b1 = AppId b2 -> Hostname b1 = Hostname b2 ->
  buildShardId b1 = buildShardId b2 -> b1 = b2.
Proof.
  destruct b1 as [a1 h1 d1], b2 as [a2 h2 d2]. unfold buildShardId. simpl.
  intros -> -> Heq. apply append_inj_l in Heq. apply append_inj_l in Heq.
  by subst.
Qed.

End WorkerMore.

Section WorkerMoreExamples.
Import loggregator_v2 ingress ingress_ext samples.

Lemma loop_forwards_logs_witness :
  written_envs
    (loop {| count := 0; lastEmitted := 0 |} [tick_log; tick_counter; tick_log]).1
  = [log 0 "hello"; log 0 "hello"].
Proof.
  destruct (loop_forwards_logs [tick_log; tick_counter; tick_log]
              {| count := 0; lastEmitted := 0 |}) as (_ & _ & Hall).
  apply Hall. repeat constructor; simpl; try lia; by eexists.
Defined.

(** A round that is stopped cuts the row short: the log still in the stream
    is not written. *)
Example loop_stops_forwarding :
  written_envs
    (loop {| count := 0; lastEmitted := 0 |} [tick_log; tick_stopped; tick_log]).1
  = [log 0 "hello"].
Proof. reflexivity. Qed.

Lemma attempt_closes_what_it_opened_witness :
  let tr := (attemptConnectAndRead binding (session [tick_log; tick_err])).1 in
  count_of isWriterClose tr = 1%nat
  /\ count_of isCloseSend tr = 1%nat
  /\ count_of isCancel tr = count_of isCloseSend tr
  /\ (@None Err = None -> last tr = Some EvWriterClose).
Proof.
  apply (attempt_closes_what_it_opened binding (session [tick_log; tick_err])
           true).
  reflexivity.
Defined.

Lemma Recv_error_restarts_witness :
  restarts binding (session [tick_log; tick_err])
  /\ connectAndRead binding (session [tick_log; tick_err] :: [bad_session])
     = ((attemptConnectAndRead binding (session [tick_log; tick_err])).1
          ++ (connectAndRead binding [bad_session]).1,
        (connectAndRead binding [bad_session]).2).
Proof.
  assert (Forall quiet [tick_log]) as Hq.
  { repeat constructor; simpl; try lia; by eexists. }
  assert (unsubscribe tick_err <= 0) as Hf by (simpl; lia).
  apply (Recv_error_restarts binding (session [tick_log; tick_err])
           [tick_log] [] tick_err "stream closed" [bad_session]
           eq_refl eq_refl eq_refl Hq Hf eq_refl).
Defined.

Lemma buildShardId_inj_witness :
  {| AppId := "A"; Hostname := "H"; Drain := "syslog://a/" |}
  = {| AppId := "A"; Hostname := "H"; Drain := "syslog://" +:+ "a/" |}.
Proof.
  apply (buildShardId_inj
           {| AppId := "A"; Hostname := "H"; Drain := "syslog://a/" |}
           {| AppId := "A"; Hostname := "H"; Drain := "syslog://" +:+ "a/" |});
    reflexivity.
Defined.

(** Without the two premises the shard id does not tell bindings apart: it
    joins the three fields with nothing between them. *)
Example buildShardId_collision :
  buildShardId {| AppId := "ab"; Hostname := "c"; Drain := "d" |}
  = buildShardId {| AppId := "a"; Hostname := "bc"; Drain := "d" |}.
Proof. reflexivity. Qed.

End WorkerMoreExamples.

(** ** The counter metric, beyond the claims *)

Section MetricMore.
Import loggregator_v2 metricemitter metric_options.

Lemma wrap64_add_r (a b : Z) : ints.wrap64 (a + ints.wrap64 b) = ints.wrap64 (a + b).
Proof. unfold ints.wrap64. apply Zplus_mod_idemp_r. Qed.

Lemma wrap64_add_l (a b : Z) : ints.wrap64 (ints.wrap64 a + b) = ints.wrap64 (a + b).
Proof. unfold ints.wrap64. apply Zplus_mod_idemp_l. Qed.

(** X18. No count is lost and none is sent twice: over any row of
    increments and sends, failed or not, what the callbacks have taken and
    what the metric still holds make up what was there and what was
    counted, modulo the size of the counter. *)
Theorem run_conserves (ops : list Op) (sent : Z) (m : CounterMetric) :
  ints.wrap64 ((run ops sent m).1 + GetDelta (run ops sent m).2)
  = ints.wrap64 (sent + GetDelta m + counted ops).
Proof.
  revert sent m. induction ops as [|[c|ok now] ops IH]; intros sent m;
    cbn [run counted fst snd].
  - f_equal. lia.
  - rewrite IH, Increment_GetDelta.
    replace (sent + ints.wrap64 (GetDelta m + c) + counted ops)
      with (sent + counted ops + ints.wrap64 (GetDelta m + c)) by lia.
    rewrite wrap64_add_r. f_equal. lia.
  - unfold SendWith, deliver. destruct ok; rewrite IH; unfold GetDelta; cbn.
    + replace (ints.wrap64 (sent + delta m) + 0 + counted ops)
        with (ints.wrap64 (sent + delta m) + counted ops) by lia.
      by rewrite wrap64_add_l.
    + replace (sent + ints.wrap64 (0 + delta m) + counted ops)
        with (sent + counted ops + ints.wrap64 (0 + delta m)) by lia.
      rewrite wrap64_add_r. f_equal. lia.
Qed.

Lemma setTag_fields (k v : string) (m : CounterMetric) :
  name (setTag k v m) = name m /\ sourceID (setTag k v m) = sourceID m
  /\ delta (setTag k v m) = delta m.
Proof. done. Qed.

Lemma WithTags_fold (ts : gmap string string) (m : CounterMetric) :
  WithTags ts m
  = {| name := name m; sourceID := sourceID m;
       tags := (text <$> ts) ∪ tags m; delta := delta m |}.
Proof.
  unfold WithTags.
  apply (map_fold_weak_ind
           (fun r ts' =>
              r = {| name := name m; sourceID := sourceID m;
                     tags := (text <$> ts') ∪ tags m; delta := delta m |})).
  - rewrite fmap_empty, (left_id_L ∅ (∪)). by destruct m.
  - intros k v ts' r Hk ->. unfold setTag. cbn. f_equal.
    by rewrite fmap_insert, insert_union_l.
Qed.

(** X19. [WithTags] sets each of the given tags to its text, overwriting a
    tag of the same name, and leaves the other tags, the name, the source
    and the delta of the metric alone, whatever the order in which the map
    is gone through. *)
Theorem WithTags_tags (ts : gmap string string) (m : CounterMetric) (k : string) :
  tags (WithTags ts m) !! k
  = match ts !! k with
    | Some v => Some (text v)
    | None => tags m !! k
    end
  /\ name (WithTags ts m) = name m
  /\ sourceID (WithTags ts m) = sourceID m
  /\ GetDelta (WithTags ts m) = GetDelta m.
Proof.
  rewrite WithTags_fold. cbn. repeat split.
  rewrite lookup_union, lookup_fmap.
  destruct (ts !! k); cbn; [by destruct (tags m !! k)|].
  by rewrite (left_id_L None union).
Qed.

(** X20. A metric made by [NewCounterMetric] with tag options has the given
    name and source, a delta of zero, and the tags of the options, where a
    later option overwrites an earlier one. *)
Theorem NewCounterMetric_tags (n s : string) (tss : list (gmap string string)) :
  NewCounterMetric n s (map WithTags tss)
  = {| name := n; sourceID := s; tags := merged tss; delta := 0 |}.
Proof.
  unfold NewCounterMetric, merged.
  generalize (∅ : gmap string (option Value)) as acc.
  induction tss as [|ts tss IH]; intros acc; [done|].
  cbn [map foldl]. rewrite WithTags_fold. apply IH.
Qed.

End MetricMore.

Section MetricMoreExamples.
Import loggregator_v2 metricemitter metric_options.

(** The version of a metric becomes its tag [metric_version]. *)
Example WithVersion_tag :
  tags (NewCounterMetric "ingress" "adapter" [WithVersion 2 0]) !! "metric_version"
  = Some (text "2.0").
Proof. by vm_compute. Qed.

(** Three counted, a failed send, four counted, a send: the callback takes
    all seven at once and the metric starts again. *)
Example run_scenario :
  run [OpIncrement 3; OpSend false 0; OpIncrement 4; OpSend true 1] 0
      samples.metric
  = (7, samples.metric).
Proof. reflexivity. Qed.

End MetricMoreExamples.

(** ** The generated envelope code, beyond the claims *)

Section EnvelopeMore.
Import loggregator_v2 envelope_ext.

(** X21. An envelope has at most one body: of the four getters [GetLog],
    [GetCounter], [GetGauge] and [GetTimer] at most one returns a
    message, for a [nil] envelope none. *)
Theorem oneof_exclusive (m : option Envelope) :
  (bodies m <= 1)%nat /\ bodies None = 0%nat.
Proof.
  split; [|done]. unfold bodies, GetLog, GetCounter, GetGauge, GetTimer, GetMessage.
  destruct m as [e|]; [|cbn; lia].
  destruct (Message e) as [[[l|]|[c|]|[g|]|[t|]]|]; cbn; lia.
Qed.

(** X22. What [_Counter_OneofMarshaler] writes for a value,
    [_Counter_OneofUnmarshaler] reads back as the same value: the key it
    writes splits into a field number and a wire type that the unmarshaler
    handles, and the varint after it is the number of the value. *)
Theorem Counter_oneof_roundtrip (WireVarint : Z) (m m0 : Counter)
    (v : isCounter_Value) (b0 : Buffer) :
  0 <= WireVarint < 8 -> Value_ m = Some v ->
  exists key x,
    _Counter_OneofMarshaler WireVarint m b0 = b0 ++ [key; x]
    /\ _Counter_OneofUnmarshaler WireVarint m0 (Z.shiftr key 3) (Z.land key 7) [x]
       = (true, None, set_Value m0 v, []).
Proof.
  intros Hw Hv. unfold _Counter_OneofMarshaler, _Counter_OneofUnmarshaler.
  rewrite Hv. unfold EncodeVarint.
  assert (WireVarint = 0 \/ WireVarint = 1 \/ WireVarint = 2 \/ WireVarint = 3
          \/ WireVarint = 4 \/ WireVarint = 5 \/ WireVarint = 6
          \/ WireVarint = 7) as Hcases by lia.
  destruct v as [d|t]; eexists _, _; (split; [by rewrite <- app_assoc|]);
    destruct Hcases as [->|[->|[->|[->|[->|[->|[->| ->]]]]]]]; reflexivity.
Qed.

Lemma Counter_oneof_roundtrip_witness :
  exists key x,
    _Counter_OneofMarshaler 0 cases.delta_counter [] = [] ++ [key; x]
    /\ _Counter_OneofUnmarshaler 0 {| Name := "egress"; Value_ := None |}
         (Z.shiftr key 3) (Z.land key 7) [x]
       = (true, None,
          set_Value {| Name := "egress"; Value_ := None |} (Counter_Delta 42),
          []).
Proof.
  apply (Counter_oneof_roundtrip 0 cases.delta_counter
           {| Name := "egress"; Value_ := None |} (Counter_Delta 42) []).
  - lia.
  - reflexivity.
Defined.

(** With the wire type of varints as the protobuf library has it, zero, the
    keys are 16 and 24; another wire type or field is not read. *)
Example Counter_oneof_keys :
  _Counter_OneofMarshaler 0 cases.delta_counter [] = [16; 42]
  /\ _Counter_OneofUnmarshaler 0 cases.delta_counter 2 2 [42]
     = (true, Some ErrInternalBadWireType, cases.delta_counter, [42])
  /\ _Counter_OneofUnmarshaler 0 cases.delta_counter 1 0 [42]
     = (false, None, cases.delta_counter, [42])
  /\ _Counter_OneofUnmarshaler 0 cases.delta_counter 2 0 []
     = (true, Some "unexpected EOF", set_Value cases.delta_counter (Counter_Delta 0), []).
Proof. by repeat split. Qed.

End EnvelopeMore.

(** ** The fake logs provider *)

Section ProviderFacts.
Import loggregator_v2 provider.







Lemma serve_stops (sourceId : string) (clocks : list Z) (r : Round)
    (rest : list Round) (err : Err) (i : Z) :
  sendRes r = Some err ->
  (serve sourceId i (delivered clocks ++ r :: rest)).2 = Returned (Some err)
  /\ length (sent (serve sourceId i (delivered clocks ++ r :: rest)).1)
     = S (length clocks)
  /\ (serve sourceId i (delivered clocks ++ r :: rest)).1
     = (serve sourceId i (delivered clocks ++ [r])).1.
Proof.
  intros Herr. revert i. induction clocks as [|c clocks IH]; intros i.
  - cbn. by rewrite Herr.
  - cbn [delivered map app serve sendRes clock]. fold (delivered clocks).
    destruct (IH (wrapInt (i + 1))) as (Hout & Hlen & Heq).
    destruct (serve sourceId (wrapInt (i + 1)) (delivered clocks ++ r :: rest))
      as [ev out].
    destruct (serve sourceId (wrapInt (i + 1)) (delivered clocks ++ [r]))
      as [ev' out'].
    cbn [fst snd sent length] in *. by rewrite Hlen, Heq.
Qed.

(** X24. [Receiver] returns the first error of [Send] and sends nothing
    after the envelope that failed. *)
Theorem Receiver_stops (sourceId : string) (clocks : list Z) (r : Round)
    (rest : list Round) (err : Err) :
  sendRes r = Some err ->
  (Receiver sourceId (delivered clocks ++ r :: rest)).2 = Returned (Some err)
  /\ length (sent (Receiver sourceId (delivered clocks ++ r :: rest)).1)
     = S (length clocks)
  /\ (Receiver sourceId (delivered clocks ++ r :: rest)).1
     = (Receiver sourceId (delivered clocks ++ [r])).1.
Proof. intros Herr. by apply serve_stops. Qed.


Lemma Receiver_stops_witness :
  (Receiver "A" (delivered [10; 20]
                   ++ {| clock := 30; sendRes := Some "gone" |}
                   :: delivered [40])).2
  = Returned (Some "gone")
  /\ length (sent (Receiver "A" (delivered [10; 20]
                      ++ {| clock := 30; sendRes := Some "gone" |}
                      :: delivered [40])).1) = 3%nat
  /\ (Receiver "A" (delivered [10; 20]
                      ++ {| clock := 30; sendRes := Some "gone" |}
                      :: delivered [40])).1
     = (Receiver "A" (delivered [10; 20]
                        ++ [{| clock := 30; sendRes := Some "gone" |}])).1.
Proof.
  apply (Receiver_stops "A" [10; 20] {| clock := 30; sendRes := Some "gone" |}
           (delivered [40]) "gone").
  reflexivity.
Defined.

End ProviderFacts.

Section MessageMoreExamples.
Import gobytes egress.

Lemma message_length_witness :
  appendNewline (removeNulls ["h"; "i"]%byte) = ["h"; "i"]%byte ++ [x0a].
Proof.
  destruct (message_length ["h"; "i"]%byte) as [_ Hshape].
  apply Hshape. intros Hin. by repeat (apply elem_of_cons in Hin as [?|Hin]; [done|]);
    apply elem_of_nil in Hin.
Defined.

End MessageMoreExamples.
